(** * Authentica n8n node: request construction, validation and dispatch

    A shallow embedding of [AuthenticaApi.credentials.ts] (the credential
    declaration [AuthenticaApi]) and of the node that follows it in the same
    source ([isE164], [isEmail], [doRequest], [Authentica.execute]).

    JavaScript values are a small tagged union, strings are [string]s whose
    characters stand for UTF-16 code units below 256, and the host
    ([IExecuteFunctions]) is a record of functions.  Code that awaits, throws
    and catches is written in a state-and-exception monad whose state holds
    the remote world and the log of host calls made so far. *)

From Stdlib Require Import String Ascii List Bool Arith ZArith Lia.
Import ListNotations.
Local Open Scope string_scope.
Local Open Scope nat_scope.
Local Open Scope list_scope.

Set Implicit Arguments.
#[local] Set Warnings "-register-all".

(** ** JavaScript values *)

Inductive JVal : Type :=
| JUndefined
| JNull
| JBool (b : bool)
| JNum (n : Z)
| JStr (s : string)
| JArr (xs : list JVal)
| JObj (props : list (string * JVal)).

(** [IDataObject]: an object, as its list of own properties. *)
Definition IDataObject := list (string * JVal).

(** [v === 'lit'] against a string literal. *)
Definition strict_eq_str (v : JVal) (lit : string) : bool :=
  match v with
  | JStr s => String.eqb s lit
  | _ => false
  end.

(** The test of [a ?? b]: is [a] null or undefined. *)
Definition is_nullish (v : JVal) : bool :=
  match v with
  | JUndefined | JNull => true
  | _ => false
  end.

(** [a ?? b] *)
Definition nullish_coalesce (a b : JVal) : JVal :=
  if is_nullish a then b else a.

(** ToBoolean, the test of [if], [&&] and [||]. *)
Definition truthy (v : JVal) : bool :=
  match v with
  | JUndefined | JNull => false
  | JBool b => b
  | JNum n => negb (Z.eqb n 0)
  | JStr s => negb (String.eqb s "")
  | JArr _ | JObj _ => true
  end.

(** Own-property lookup in an object literal. *)
Fixpoint lookup_prop (k : string) (o : IDataObject) : option JVal :=
  match o with
  | [] => None
  | (k', v) :: o' => if String.eqb k' k then Some v else lookup_prop k o'
  end.

(** [o.k = v]: overwrite in place when the key exists, append otherwise. *)
Fixpoint set_prop (k : string) (v : JVal) (o : IDataObject) : IDataObject :=
  match o with
  | [] => [(k, v)]
  | (k', v') :: o' =>
      if String.eqb k' k then (k', v) :: o' else (k', v') :: set_prop k v o'
  end.

(** ** Errors *)

(** What a call on the host fails with: an error that is already a
    [NodeApiError] (what the authenticating transport throws on a failed
    request), or any other error.  Both carry a message. *)
Inductive HostFailure : Type :=
| PlainError (message : string)
| HostNodeApiError (message : string).

Coercion PlainError : string >-> HostFailure.

Definition failure_message (f : HostFailure) : string :=
  match f with
  | PlainError m | HostNodeApiError m => m
  end.

(** What the node body can throw and its [catch] can see: the node's own
    [NodeOperationError], an engine [TypeError], or an error raised by the
    host (parameter resolution, credential store, transport). *)
Inductive JsError : Type :=
| NodeOperationError (message : string)
| TypeError (message : string)
| HostError (failure : HostFailure).

(** [(error as Error).message] *)
Definition error_message (e : JsError) : string :=
  match e with
  | NodeOperationError m | TypeError m => m
  | HostError f => failure_message f
  end.

(** [error instanceof NodeApiError] *)
Definition is_NodeApiError (e : JsError) : bool :=
  match e with
  | HostError (HostNodeApiError _) => true
  | _ => false
  end.

(** What leaves [execute]: the [NodeApiError] built in its [catch] with the
    index of the item; the caught error itself, when it is already a
    [NodeApiError]; or an error thrown outside the [try]. *)
Inductive RunError : Type :=
| NodeApiError (cause : JsError) (itemIndex : nat)
| Rethrown (error : JsError)
| Uncaught (cause : JsError).

(** [new NodeApiError(this.getNode(), error, { itemIndex })]: the
    constructor hands back [error] itself, as it is, when it is already a
    [NodeApiError], and builds the error of the item otherwise. *)
Definition new_NodeApiError (error : JsError) (itemIndex : nat) : RunError :=
  if is_NodeApiError error then Rethrown error
  else NodeApiError error itemIndex.

Inductive Result (E A : Type) : Type :=
| Ok (a : A)
| Throw (e : E).
Arguments Ok {E A} a.
Arguments Throw {E A} e.

(** ** Strings: whitespace, [trim] and the two regular expressions *)

Definition code (c : ascii) : nat := nat_of_ascii c.

(** WhiteSpace and LineTerminator code units below 256: TAB, LF, VT, FF, CR,
    SP and NBSP.  It is the set [String.prototype.trim] strips and the class
    [\s]. *)
Definition is_space (c : ascii) : bool :=
  ((9 <=? code c) && (code c <=? 13)) || (code c =? 32) || (code c =? 160).

(** [\d] *)
Definition is_digit (c : ascii) : bool := (48 <=? code c) && (code c <=? 57).

(** [[1-9]] *)
Definition is_digit19 (c : ascii) : bool := (49 <=? code c) && (code c <=? 57).

(** [[^\s@]] *)
Definition not_space_at (c : ascii) : bool :=
  negb (is_space c) && negb (Ascii.eqb c "@").

Definition is_char (x : ascii) (c : ascii) : bool := Ascii.eqb c x.

Fixpoint trimStart (s : list ascii) : list ascii :=
  match s with
  | [] => []
  | c :: s' => if is_space c then trimStart s' else s
  end.

Definition trimEnd (s : list ascii) : list ascii := rev (trimStart (rev s)).

(** [s.trim()] *)
Definition trim (s : string) : string :=
  string_of_list_ascii (trimEnd (trimStart (list_ascii_of_string s))).

(** The regular expressions of the source are anchored at both ends and are
    sequences of quantified character classes; [Quant p lo hi] is a class
    [p] repeated between [lo] and [hi] times ([None]: unbounded). *)
Record Quant : Type := mkQuant {
  qclass : ascii -> bool;
  qmin : nat;
  qmax : option nat
}.

Definition Regex := list Quant.

Definition once (p : ascii -> bool) : Quant := mkQuant p 1 (Some 1).
Definition plus (p : ascii -> bool) : Quant := mkQuant p 1 None.
Definition between (p : ascii -> bool) (lo hi : nat) : Quant :=
  mkQuant p lo (Some hi).

Definition may_take (hi : option nat) : bool :=
  match hi with
  | Some 0 => false
  | _ => true
  end.

(** Backtracking over one quantified class: take one more character (greedy
    first), or stop here when the minimum is reached and let [k] match the
    rest. *)
Fixpoint match_quant (p : ascii -> bool) (lo : nat) (hi : option nat)
    (k : list ascii -> bool) (s : list ascii) {struct s} : bool :=
  match s with
  | [] => (lo =? 0) && k []
  | c :: s' =>
      (p c && may_take hi && match_quant p (pred lo) (option_map pred hi) k s')
      || ((lo =? 0) && k s)
  end.

Definition at_end (s : list ascii) : bool :=
  match s with
  | [] => true
  | _ :: _ => false
  end.

Fixpoint match_regex (r : Regex) : list ascii -> bool :=
  match r with
  | [] => at_end
  | q :: r' => match_quant (qclass q) (qmin q) (qmax q) (match_regex r')
  end.

(** [re.test(s)] for an anchored [re]. *)
Definition regex_test (r : Regex) (s : string) : bool :=
  match_regex r (list_ascii_of_string s).

(** [/^\+[1-9]\d{6,14}$/] *)
Definition re_E164 : Regex :=
  [once (is_char "+"); once is_digit19; between is_digit 6 14].

(** [/^[^\s@]+@[^\s@]+\.[^\s@]+$/] *)
Definition re_email : Regex :=
  [plus not_space_at; once (is_char "@"); plus not_space_at;
   once (is_char "."); plus not_space_at].

(** [(v ?? '').trim()]: a string has [trim]; any other value that is not
    null or undefined has no such method and the call throws. *)
Definition coalesce_trim (v : JVal) : Result JsError string :=
  match nullish_coalesce v (JStr "") with
  | JStr s => Ok (trim s)
  | _ => Throw (TypeError "(intermediate value).trim is not a function")
  end.

Definition isE164 (phone : JVal) : Result JsError bool :=
  match coalesce_trim phone with
  | Ok t => Ok (regex_test re_E164 t)
  | Throw e => Throw e
  end.

Definition isEmail (v : JVal) : Result JsError bool :=
  match coalesce_trim v with
  | Ok t => Ok (regex_test re_email t)
  | Throw e => Throw e
  end.

(** ** The credential declaration [AuthenticaApi] *)

(** [IAuthenticateGeneric]: the headers the host adds to every request made
    with the credential; a value that starts with [=] is an expression the
    host resolves against the stored credential. *)
Record IAuthenticateGeneric : Type := mkAuthenticate {
  auth_type : string;
  auth_headers : list (string * string)
}.

Inductive HttpMethod : Type := GET | POST | DELETE.

Record ICredentialTestRequest : Type := mkTestRequest {
  test_method : HttpMethod;
  test_baseURL : string;
  test_url : string
}.

Module AuthenticaApi.

Definition name : string := "authenticaApi".
Definition displayName : string := "Authentica API".

(** The two [properties]: name, type and default. *)
Definition properties : list (string * string * string) :=
  [("apiKey", "string", ""); ("baseUrl", "string", "https://api.authentica.sa")].

Definition authenticate : IAuthenticateGeneric :=
  mkAuthenticate "generic"
    [("X-Authorization", "={{$credentials.apiKey}}");
     ("Accept", "application/json")].

Definition test : ICredentialTestRequest :=
  mkTestRequest GET "={{$credentials.baseUrl}}" "/api/v2/balance".

End AuthenticaApi.

(** The stored credential: both declared properties are strings. *)
Definition ICredentialDataDecryptedObject := list (string * string).

Fixpoint credential_prop (k : string) (c : ICredentialDataDecryptedObject)
    : option string :=
  match c with
  | [] => None
  | (k', v) :: c' => if String.eqb k' k then Some v else credential_prop k c'
  end.

(** The headers a generic [authenticate] block contributes to a request, for
    a host whose expression resolver is [resolve]. *)
Definition injected_headers
    (resolve : string -> ICredentialDataDecryptedObject -> string)
    (a : IAuthenticateGeneric) (c : ICredentialDataDecryptedObject)
    : list (string * string) :=
  map (fun kv => (fst kv, resolve (snd kv) c)) (auth_headers a).

(** ** The host: [IExecuteFunctions] *)

Record IHttpRequestOptions : Type := mkOptions {
  method : HttpMethod;
  url : string;
  headers : list (string * string);
  opt_json : bool;
  body : option IDataObject
}.

Record INodeExecutionData : Type := mkItem {
  json : IDataObject;
  pairedItem : option nat
}.

(** A host call returns a value or fails. *)
Definition HostResult (A : Type) := Result HostFailure A.

(** Every call the node makes on [this], in the order made. *)
Inductive Event : Type :=
| CallGetNodeParameter (name : string) (itemIndex : nat) (fallback : option JVal)
| CallGetCredentials (name : string)
| CallHttpRequest (credentialsType : string) (options : IHttpRequestOptions)
    (response : HostResult JVal)
| CallContinueOnFail.

(** The host as the node sees it.  Parameters, credentials, input items and
    the continue-on-fail setting are fixed for a run; the transport acts on a
    remote world [W]. *)
Record IExecuteFunctions (W : Type) : Type := mkHost {
  inputData : list INodeExecutionData;
  resolveParameter : string -> nat -> option JVal -> HostResult JVal;
  credentialStore : string -> HostResult (option ICredentialDataDecryptedObject);
  continueOnFailSetting : bool;
  transport : string -> IHttpRequestOptions -> W -> HostResult JVal * W
}.

Record State (W : Type) : Type := mkState {
  world : W;
  calls : list Event
}.

Definition http_method_eqb (a b : HttpMethod) : bool :=
  match a, b with
  | GET, GET | POST, POST | DELETE, DELETE => true
  | _, _ => false
  end.

Definition is_http (e : Event) : bool :=
  match e with
  | CallHttpRequest _ _ _ => true
  | _ => false
  end.

(** The requests among a list of calls. *)
Definition http_calls (l : list Event) : list Event := filter is_http l.

(** ** The monad of the node's code *)

Section Monad.
Context {W : Type}.

Definition M (A : Type) : Type := State W -> Result JsError A * State W.

Definition ret {A} (a : A) : M A := fun s => (Ok a, s).

Definition bind {A B} (m : M A) (f : A -> M B) : M B :=
  fun s =>
    match m s with
    | (Ok a, s') => f a s'
    | (Throw e, s') => (Throw e, s')
    end.

Definition throw {A} (e : JsError) : M A := fun s => (Throw e, s).

(** [try { m } catch (error) { handler error }] *)
Definition try_catch {A} (m : M A) (handler : JsError -> M A) : M A :=
  fun s =>
    match m s with
    | (Ok a, s') => (Ok a, s')
    | (Throw e, s') => handler e s'
    end.

Definition lift {A} (r : Result JsError A) : M A := fun s => (r, s).

Definition record (e : Event) (s : State W) : State W :=
  mkState (world s) (calls s ++ [e]).

Definition of_host {A} (r : HostResult A) : Result JsError A :=
  match r with
  | Ok a => Ok a
  | Throw m => Throw (HostError m)
  end.
End Monad.

Arguments M : clear implicits.

Declare Scope node_scope.
Delimit Scope node_scope with node.
Notation "x <- m ;; k" := (bind m (fun x => k))
  (at level 61, m at next level, right associativity) : node_scope.
Notation "' p <- m ;; k" := (bind m (fun x => match x with p => k end))
  (at level 61, p pattern, m at next level, right associativity) : node_scope.
Local Open Scope node_scope.

(** ** The node *)

(** [v.k] on a value that is not null or undefined.  The node only reads
    [data] and [balance], which no primitive, array or prototype defines. *)
Definition member (v : JVal) (k : string) : JVal :=
  match v with
  | JObj o =>
      match lookup_prop k o with
      | Some x => x
      | None => JUndefined
      end
  | _ => JUndefined
  end.

(** [v.k]: reading a property of null or undefined throws. *)
Definition get_member (v : JVal) (k : string) : Result JsError JVal :=
  match v with
  | JUndefined => Throw (TypeError "Cannot read properties of undefined")
  | JNull => Throw (TypeError "Cannot read properties of null")
  | _ => Ok (member v k)
  end.

(** [v?.k] *)
Definition opt_member (v : JVal) (k : string) : JVal :=
  if is_nullish v then JUndefined else member v k.

Definition default_baseUrl : string := "https://api.authentica.sa".

Definition request_headers : list (string * string) :=
  [("Content-Type", "application/json"); ("Accept", "application/json")].

(** [(creds?.baseUrl as string) || 'https://api.authentica.sa'] *)
Definition baseUrl_of (creds : option ICredentialDataDecryptedObject) : string :=
  match creds with
  | None => default_baseUrl
  | Some c =>
      match credential_prop "baseUrl" c with
      | None => default_baseUrl
      | Some u => if String.eqb u "" then default_baseUrl else u
      end
  end.

(** The [options] of [doRequest] once the body has been attached. *)
Definition request_options (m : HttpMethod) (baseUrl path : string)
    (b : option IDataObject) : IHttpRequestOptions :=
  let options := mkOptions m (baseUrl ++ path)%string request_headers true None in
  match b with
  | Some o =>
      if negb (http_method_eqb m GET)
      then mkOptions (method options) (url options) (headers options)
             (opt_json options) (Some o)
      else options
  | None => options
  end.

(** The two errors of validation.  The node handle given to their constructor
    ([this.getNode()]) plays no part in what follows and is left out. *)
Definition phone_error : JsError :=
  NodeOperationError "Phone must be E.164, e.g. +9665XXXXXXX".

Definition email_error : JsError := NodeOperationError "Email is not valid".

Section Node.
Context {W : Type} (this : IExecuteFunctions W).

(** An [async] computation of the node against the host [this]. *)
Local Abbreviation Promise := (M W).

(** [this.getNodeParameter(name, i, fallback)] *)
Definition getNodeParameter (name : string) (i : nat)
    (fallback : option JVal) : Promise JVal :=
  fun s => (of_host (resolveParameter this name i fallback),
            record (CallGetNodeParameter name i fallback) s).

(** [this.getCredentials(name)] *)
Definition getCredentials (name : string)
    : Promise (option ICredentialDataDecryptedObject) :=
  fun s => (of_host (credentialStore this name),
            record (CallGetCredentials name) s).

(** [this.helpers.httpRequestWithAuthentication.call(this, name, options)] *)
Definition httpRequestWithAuthentication (name : string)
    (options : IHttpRequestOptions) : Promise JVal :=
  fun s =>
    let (r, w) := transport this name options (world s) in
    (of_host r, mkState w (calls s ++ [CallHttpRequest name options r])).

(** [this.continueOnFail()] *)
Definition continueOnFail (s : State W) : bool * State W :=
  (continueOnFailSetting this, record CallContinueOnFail s).

Definition doRequest (m : HttpMethod) (path : string)
    (b : option IDataObject) (i : nat) : Promise JVal :=
  creds <- getCredentials "authenticaApi" ;;
  let baseUrl := baseUrl_of creds in
  let options := request_options m baseUrl path b in
  try_catch
    (response <- httpRequestWithAuthentication "authenticaApi" options ;;
     ret response)
    (fun error => throw error).

(** [if (!valid(v)) throw err] *)
Definition require (valid : JVal -> Result JsError bool) (v : JVal)
    (err : JsError) : Promise unit :=
  ok <- lift (valid v) ;;
  if negb ok then throw err else ret tt.

(** The block under [resource === 'otp' && operation === 'send']; it
    yields the new values of [out] and [res]. *)
Definition send_block (i : nat) : Promise (IDataObject * JVal) :=
  method <- getNodeParameter "otpMethod" i None ;;
  phone <- getNodeParameter "phone" i (Some (JStr "")) ;;
  email <- getNodeParameter "email" i (Some (JStr "")) ;;
  _ <- (if negb (strict_eq_str method "email")
        then require isE164 phone phone_error
        else require isEmail email email_error) ;;
  let body := [("method", method)] in
  let body := if strict_eq_str method "email"
              then set_prop "email" email body
              else set_prop "phone" phone body in
  res <- doRequest POST "/api/v2/send-otp" (Some body) i ;;
  ret ([("success", JBool true)], res).

(** The block under [resource === 'otp' && operation === 'verify']. *)
Definition verify_block (i : nat) : Promise (IDataObject * JVal) :=
  verifyWith <- getNodeParameter "verifyWith" i None ;;
  otp <- getNodeParameter "otp" i None ;;
  let body := [("otp", otp)] in
  body <- (if strict_eq_str verifyWith "email"
           then
             v <- getNodeParameter "verifyEmail" i None ;;
             let body := set_prop "email" v body in
             _ <- require isEmail (member (JObj body) "email") email_error ;;
             ret body
           else
             v <- getNodeParameter "verifyPhone" i None ;;
             let body := set_prop "phone" v body in
             _ <- require isE164 (member (JObj body) "phone") phone_error ;;
             ret body) ;;
  res <- doRequest POST "/api/v2/verify-otp" (Some body) i ;;
  ret ([("verified", JBool true)], res).

(** The block under [resource === 'account' && operation === 'getBalance']. *)
Definition balance_of (res : JVal) : Result JsError JVal :=
  match get_member res "data" with
  | Throw e => Throw e
  | Ok d =>
      let data := nullish_coalesce d res in
      Ok (nullish_coalesce (opt_member data "balance")
            (opt_member (opt_member data "data") "balance"))
  end.

Definition getBalance_block (i : nat) : Promise (IDataObject * JVal) :=
  res <- doRequest GET "/api/v2/balance" None i ;;
  balance <- lift (balance_of res) ;;
  ret ([("balance", balance)], res).

(** [if (includeRaw && res) out.raw = res] *)
Definition attach_raw (includeRaw : JVal) (out : IDataObject) (res : JVal)
    : IDataObject :=
  if truthy includeRaw && truthy res then set_prop "raw" res out else out.

(** The body of the [try] for item [i]: three guarded blocks in sequence
    over the locals [out] and [res], then the record that is pushed. *)
Definition item_body (resource operation includeRaw : JVal) (i : nat)
    : Promise INodeExecutionData :=
  let st : IDataObject * JVal := ([], JUndefined) in
  st <- (if strict_eq_str resource "otp" && strict_eq_str operation "send"
         then send_block i else ret st) ;;
  st <- (if strict_eq_str resource "otp" && strict_eq_str operation "verify"
         then verify_block i else ret st) ;;
  st <- (if strict_eq_str resource "account"
            && strict_eq_str operation "getBalance"
         then getBalance_block i else ret st) ;;
  let out := attach_raw includeRaw (fst st) (snd st) in
  ret (mkItem out None).

(** The record pushed by the [catch] under continue-on-fail. *)
Definition error_item (e : JsError) (i : nat) : INodeExecutionData :=
  mkItem [("error", JStr (error_message e))] (Some i).

(** One turn of the loop: the [try] and its [catch].  [Ok] is the record
    pushed on [returnData]; [Throw] leaves [execute]. *)
Definition item_step (resource operation includeRaw : JVal) (i : nat)
    (s : State W) : Result RunError INodeExecutionData * State W :=
  match item_body resource operation includeRaw i s with
  | (Ok r, s1) => (Ok r, s1)
  | (Throw e, s1) =>
      let (c, s2) := continueOnFail s1 in
      if c then (Ok (error_item e i), s2)
      else (Throw (new_NodeApiError e i), s2)
  end.

(** [for (let i = ...; i < items.length; i++)] with [n] turns left. *)
Fixpoint for_items (resource operation includeRaw : JVal) (n i : nat)
    (returnData : list INodeExecutionData) (s : State W)
    : Result RunError (list INodeExecutionData) * State W :=
  match n with
  | 0 => (Ok returnData, s)
  | S n' =>
      match item_step resource operation includeRaw i s with
      | (Ok r, s1) =>
          for_items resource operation includeRaw n' (S i)
            (returnData ++ [r]) s1
      | (Throw e, s1) => (Throw e, s1)
      end
  end.

(** The three run-level parameters are read outside the [try]: a failure
    there leaves [execute] as it is. *)
Definition execute (s : State W)
    : Result RunError (list (list INodeExecutionData)) * State W :=
  let items := inputData this in
  let returnData : list INodeExecutionData := [] in
  match getNodeParameter "resource" 0 None s with
  | (Throw e, s1) => (Throw (Uncaught e), s1)
  | (Ok resource, s1) =>
      match getNodeParameter "operation" 0 None s1 with
      | (Throw e, s2) => (Throw (Uncaught e), s2)
      | (Ok operation, s2) =>
          match getNodeParameter "includeRaw" 0 (Some (JBool false)) s2 with
          | (Throw e, s3) => (Throw (Uncaught e), s3)
          | (Ok includeRaw, s3) =>
              match for_items resource operation includeRaw
                      (length items) 0 returnData s3 with
              | (Ok returnData, s4) => (Ok [returnData], s4)
              | (Throw e, s4) => (Throw e, s4)
              end
          end
      end
  end.
End Node.

(** * Vocabulary of the properties *)

(** ** Validation *)

(** Every character of [l] is white space. *)
Definition all_space (l : list ascii) : Prop := forallb is_space l = true.

(** [+], a digit 1-9, then 6 to 14 digits. *)
Definition E164_form (t : list ascii) : Prop :=
  exists d ds,
    t = "+"%char :: d :: ds /\ is_digit19 d = true /\
    forallb is_digit ds = true /\ 6 <= length ds <= 14.

(** local@domain.tld, each part non-empty and free of white space and [@]. *)
Definition email_form (t : list ascii) : Prop :=
  exists a b c,
    t = a ++ "@"%char :: b ++ "."%char :: c /\
    a <> [] /\ b <> [] /\ c <> [] /\
    forallb not_space_at a = true /\ forallb not_space_at b = true /\
    forallb not_space_at c = true.

Definition within (hi : option nat) (n : nat) : Prop :=
  match hi with
  | Some h => n <= h
  | None => True
  end.

Definition no_space (l : list ascii) : Prop :=
  forallb (fun c => negb (is_space c)) l = true.


(** What it means for the check [check] of a contact identifier to guard the
    request of an item: [r] is the outcome of the item's [try] body from
    state [s] and [s'] the state when the item's turn of the loop is over.
    The error [err] is raised exactly when the check returns false, and no
    request is made unless it returns true. *)
Definition guards {W} (check : Result JsError bool) (err : JsError)
    (r : Result JsError INodeExecutionData) (s s' : State W) : Prop :=
  (check = Ok false -> r = Throw err) /\
  ((exists m, r = Throw (NodeOperationError m)) -> check = Ok false) /\
  (check <> Ok true -> http_calls (calls s') = http_calls (calls s)).

(** [creds?.baseUrl] *)
Definition stored_baseUrl (creds : option ICredentialDataDecryptedObject)
    : option string :=
  match creds with
  | Some c => credential_prop "baseUrl" c
  | None => None
  end.

(** The request descriptor of each operation. *)
Definition send_request (creds : option ICredentialDataDecryptedObject)
    (method contact : JVal) : IHttpRequestOptions :=
  mkOptions POST (baseUrl_of creds ++ "/api/v2/send-otp")%string
    request_headers true
    (Some [("method", method);
           (if strict_eq_str method "email" then "email" else "phone", contact)]).

Definition verify_request (creds : option ICredentialDataDecryptedObject)
    (verifyWith otp contact : JVal) : IHttpRequestOptions :=
  mkOptions POST (baseUrl_of creds ++ "/api/v2/verify-otp")%string
    request_headers true
    (Some [("otp", otp);
           (if strict_eq_str verifyWith "email" then "email" else "phone", contact)]).

Definition balance_request (creds : option ICredentialDataDecryptedObject)
    : IHttpRequestOptions :=
  mkOptions GET (baseUrl_of creds ++ "/api/v2/balance")%string
    request_headers true None.

(** ** Runs *)

(** The state in which the loop starts: the three run-level parameters have
    been read. *)
Definition after_header {W} (s : State W) : State W :=
  record (CallGetNodeParameter "includeRaw" 0 (Some (JBool false)))
    (record (CallGetNodeParameter "operation" 0 None)
       (record (CallGetNodeParameter "resource" 0 None) s)).

(** [turns this resource operation includeRaw i s rs s']: from state [s] the
    items [i], [i+1], ... each end a turn of the loop with a record; [rs] are
    these records in order and [s'] is the state after the last. *)
Inductive turns {W} (this : IExecuteFunctions W)
    (resource operation includeRaw : JVal)
    : nat -> State W -> list INodeExecutionData -> State W -> Prop :=
| turns_done i s : turns this resource operation includeRaw i s [] s
| turns_next i s r s1 rs s2 :
    item_step this resource operation includeRaw i s = (Ok r, s1) ->
    turns this resource operation includeRaw (S i) s1 rs s2 ->
    turns this resource operation includeRaw i s (r :: rs) s2.

(** The block of the loop body that a resource and an operation select. *)
Inductive Branch : Type := SendOtp | VerifyOtp | GetBalance | NoBranch.

Definition branch_of (resource operation : JVal) : Branch :=
  if strict_eq_str resource "otp" && strict_eq_str operation "send" then SendOtp
  else if strict_eq_str resource "otp" && strict_eq_str operation "verify"
  then VerifyOtp
  else if strict_eq_str resource "account" && strict_eq_str operation "getBalance"
  then GetBalance
  else NoBranch.

(** What the end of the [try] makes of a block's [out] and [res]. *)
Definition finish {W} (includeRaw : JVal)
    (r : Result JsError (IDataObject * JVal) * State W)
    : Result JsError INodeExecutionData * State W :=
  match r with
  | (Ok (out, res), s) => (Ok (mkItem (attach_raw includeRaw out res) None), s)
  | (Throw e, s) => (Throw e, s)
  end.

(** Item [i] of the run is entered in state [si]: the items before it have
    each ended their turn with a record. *)
Definition reaches {W} (this : IExecuteFunctions W)
    (resource operation includeRaw : JVal) (s : State W) (i : nat)
    (si : State W) : Prop :=
  exists rs, length rs = i /\
             turns this resource operation includeRaw 0 s rs si.

(** The calls made between two states. *)
Definition calls_since {W} (s s' : State W) (t : list Event) : Prop :=
  calls s' = calls s ++ t.

Arguments calls_since {W} s s' t /.

(** The item's one request was answered with [res]. *)
Definition answered {W} (s s' : State W) (res : JVal) : Prop :=
  exists t o,
    calls s' = calls s ++ t /\
    http_calls t = [CallHttpRequest "authenticaApi" o (Ok res)].

(** The record of an operation: its own keys, then [raw] when it is
    attached. *)
Definition normalized (base : IDataObject) (includeRaw res : JVal)
    : IDataObject :=
  if truthy includeRaw && truthy res then base ++ [("raw", res)] else base.

(** The fallback chain of the balance, property by property. *)
Definition balance_chain (res : JVal) : JVal :=
  let data :=
    if is_nullish (member res "data") then res else member res "data" in
  if is_nullish (member data "balance")
  then member (member data "data") "balance"
  else member data "balance".

(** The parameters read once for the run and those read per item. *)
Definition run_parameters : list string := ["resource"; "operation"; "includeRaw"].

Definition item_parameters : list string :=
  ["otpMethod"; "phone"; "email"; "verifyWith"; "verifyPhone"; "verifyEmail"; "otp"].

Definition mem_string (x : string) (l : list string) : bool :=
  existsb (String.eqb x) l.

(** A call made while item [i] is processed reads no run-level parameter and
    reads per-item parameters at index [i] only. *)
Definition call_of_item (i : nat) (e : Event) : bool :=
  match e with
  | CallGetNodeParameter name j _ => mem_string name item_parameters && (j =? i)
  | _ => true
  end.

(** The three reads that open a run. *)
Definition run_header : list Event :=
  [CallGetNodeParameter "resource" 0 None;
   CallGetNodeParameter "operation" 0 None;
   CallGetNodeParameter "includeRaw" 0 (Some (JBool false))].

(** A request goes through the transport under the credential's name and
    asks for JSON. *)
Definition via_credential (e : Event) : bool :=
  match e with
  | CallHttpRequest c o _ =>
      String.eqb c AuthenticaApi.name
      && existsb (fun h => String.eqb (fst h) "Accept"
                           && String.eqb (snd h) "application/json")
           (headers o)
  | _ => true
  end.

(** What holds of the calls made during the turn of item [i]. *)
Definition item_calls (i : nat) (t : list Event) : Prop :=
  forallb (call_of_item i) t = true /\
  length (http_calls t) <= 1 /\
  forallb via_credential t = true.

(** The balance request of a run, once per response. *)
Definition balance_calls (creds : option ICredentialDataDecryptedObject)
    (responses : list (HostResult JVal)) : list Event :=
  map (CallHttpRequest "authenticaApi" (balance_request creds)) responses.

(** The reading of the request count that does not hold: every run in
    account/getBalance mode issues as many requests as it has input items. *)
Definition one_request_per_input_item : Prop :=
  forall (this : IExecuteFunctions nat) (s : State nat),
    resolveParameter this "resource" 0 None = Ok (JStr "account") ->
    resolveParameter this "operation" 0 None = Ok (JStr "getBalance") ->
    length (http_calls (calls (snd (execute this s))))
    = length (http_calls (calls s)) + length (inputData this).


(** ** Hosts on which the node is run in the examples *)

Module Demo.

Definition table := list (string * (nat -> JVal)).

Fixpoint find (name : string) (t : table) : option (nat -> JVal) :=
  match t with
  | [] => None
  | (k, f) :: t' => if String.eqb k name then Some f else find name t'
  end.

(** A parameter of the table resolves to its value at the item; one that is
    not there resolves to the fallback, and fails without one. *)
Definition resolve (t : table) (name : string) (i : nat)
    (fallback : option JVal) : HostResult JVal :=
  match find name t with
  | Some f => Ok (f i)
  | None =>
      match fallback with
      | Some d => Ok d
      | None => Throw (PlainError "Could not get parameter")
      end
  end.

Definition const (v : JVal) : nat -> JVal := fun _ => v.

Definition stored : ICredentialDataDecryptedObject :=
  [("apiKey", "secret-key"); ("baseUrl", "https://staging.authentica.sa")].

(** A remote that numbers the requests it serves and answers with a balance
    that goes down by one at each request. *)
Definition serving (_ : string) (_ : IHttpRequestOptions) (w : nat)
    : HostResult JVal * nat :=
  (Ok (JObj [("data", JObj [("balance", JNum (100 - Z.of_nat w))])]), S w).

(** A remote that refuses every request. *)
Definition refusing (_ : string) (_ : IHttpRequestOptions) (w : nat)
    : HostResult JVal * nat :=
  (Throw (PlainError "connect ECONNREFUSED"), S w).

(** A remote that rejects every request, the transport throwing the
    [NodeApiError] it makes of the rejection. *)
Definition rejecting (_ : string) (_ : IHttpRequestOptions) (w : nat)
    : HostResult JVal * nat :=
  (Throw (HostNodeApiError "Authorization failed"), S w).

(** A remote that answers with a fixed value. *)
Definition answering (v : JVal) (_ : string) (_ : IHttpRequestOptions) (w : nat)
    : HostResult JVal * nat :=
  (Ok v, S w).

Definition host (n : nat) (t : table) (cont : bool)
    (remote : string -> IHttpRequestOptions -> nat -> HostResult JVal * nat)
    : IExecuteFunctions nat :=
  mkHost (repeat (mkItem [] None) n) (resolve t)
    (fun _ => Ok (Some stored)) cont remote.

Definition start : State nat := mkState 0 [].

(** A host whose expressions resolve as its credential store reads them: the
    reference to the API key is the stored key, a literal is itself. *)
Definition resolve_expression (v : string) (c : ICredentialDataDecryptedObject)
    : string :=
  if String.eqb v "={{$credentials.apiKey}}"
  then match credential_prop "apiKey" c with
       | Some k => k
       | None => ""
       end
  else v.

Definition send_sms : table :=
  [("resource", const (JStr "otp")); ("operation", const (JStr "send"));
   ("otpMethod", const (JStr "sms"));
   ("phone", fun i => if i =? 0 then JStr "+966512345678" else JStr "0512345678")].

Definition send_email : table :=
  [("resource", const (JStr "otp")); ("operation", const (JStr "send"));
   ("otpMethod", const (JStr "email"));
   ("email", fun i => if i =? 0 then JStr "user@example.com" else JStr "user.example.com")].

Definition verify_phone : table :=
  [("resource", const (JStr "otp")); ("operation", const (JStr "verify"));
   ("verifyWith", const (JStr "phone")); ("otp", const (JStr "123456"));
   ("verifyPhone", fun i => if i =? 0 then JStr "+966512345678" else JStr "966512345678")].

Definition verify_email : table :=
  [("resource", const (JStr "otp")); ("operation", const (JStr "verify"));
   ("verifyWith", const (JStr "email")); ("otp", const (JStr "123456"));
   ("verifyEmail", fun i => if i =? 0 then JStr "user@example.com" else JStr "user@example")].

Definition balance : table :=
  [("resource", const (JStr "account")); ("operation", const (JStr "getBalance"))].

Definition with_raw (t : table) : table := ("includeRaw", const (JBool true)) :: t.

End Demo.

(** * The node description *)

(** [INodeProperties], as far as the node declares it: name, type, default,
    whether it is required and closed to expressions, the values of its
    options, and the [displayOptions.show] table (a parameter name with the
    values under which the property is shown).  Placeholders, hints and the
    texts of the options are display strings and are left out. *)
Record INodeProperties : Type := mkProperty {
  prop_displayName : string;
  prop_name : string;
  prop_type : string;
  prop_default : JVal;
  prop_required : bool;
  prop_noDataExpression : bool;
  prop_options : list string;
  prop_show : list (string * list string)
}.

Module Authentica.

Definition displayName : string := "Authentica".
Definition name : string := "authentica".
Definition version : nat := 1.

(** [credentials: [{ name: 'authenticaApi', required: true }]] *)
Definition credentials : list (string * bool) := [("authenticaApi", true)].

Definition properties : list INodeProperties :=
  [ mkProperty "Resource" "resource" "options" (JStr "otp") false true
      ["account"; "otp"] [];
    mkProperty "Operation" "operation" "options" (JStr "send") false true
      ["send"; "verify"] [("resource", ["otp"])];
    mkProperty "Method" "otpMethod" "options" (JStr "sms") false true
      ["email"; "sms"; "whatsapp"]
      [("resource", ["otp"]); ("operation", ["send"])];
    mkProperty "Phone" "phone" "string" (JStr "") false false []
      [("resource", ["otp"]); ("operation", ["send"]);
       ("otpMethod", ["sms"; "whatsapp"])];
    mkProperty "Email" "email" "string" (JStr "") false false []
      [("resource", ["otp"]); ("operation", ["send"]);
       ("otpMethod", ["email"])];
    mkProperty "Verify With" "verifyWith" "options" (JStr "phone") false true
      ["phone"; "email"]
      [("resource", ["otp"]); ("operation", ["verify"])];
    mkProperty "Phone" "verifyPhone" "string" (JStr "") true false []
      [("resource", ["otp"]); ("operation", ["verify"]);
       ("verifyWith", ["phone"])];
    mkProperty "Email" "verifyEmail" "string" (JStr "") true false []
      [("resource", ["otp"]); ("operation", ["verify"]);
       ("verifyWith", ["email"])];
    mkProperty "OTP Code" "otp" "string" (JStr "") true false []
      [("resource", ["otp"]); ("operation", ["verify"])];
    mkProperty "Operation" "operation" "options" (JStr "getBalance") false true
      ["getBalance"] [("resource", ["account"])];
    mkProperty "Include Raw Response" "includeRaw" "boolean" (JBool false)
      false false [] [] ].

End Authentica.

(** The values listed for [key] in the [show] table of [p]. *)
Fixpoint show_values (key : string) (show : list (string * list string))
    : list string :=
  match show with
  | [] => []
  | (k, vs) :: show' => if String.eqb k key then vs else show_values key show'
  end.

(** The resource and operation pairs the description offers: each option of
    an [operation] property, with each resource it is shown for. *)
Definition offered : list (string * string) :=
  flat_map
    (fun p =>
       if String.eqb (prop_name p) "operation"
       then flat_map (fun r => map (fun o => (r, o)) (prop_options p))
              (show_values "resource" (prop_show p))
       else [])
    Authentica.properties.

(** The properties that are shown only under [key = value]. *)
Definition fields_for (key value : string) : list string :=
  map prop_name
    (filter (fun p => existsb (String.eqb value) (show_values key (prop_show p)))
       Authentica.properties).

(** The options of the property called [name]. *)
Definition options_of (name : string) : list string :=
  flat_map (fun p => if String.eqb (prop_name p) name then prop_options p else [])
    Authentica.properties.

(** A fallback handed to [getNodeParameter] is the declared default. *)
Definition fallback_is_default (fallback : option JVal) (d : JVal) : bool :=
  match fallback, d with
  | None, _ => true
  | Some (JStr a), JStr b => String.eqb a b
  | Some (JBool a), JBool b => Bool.eqb a b
  | _, _ => false
  end.

(** The read of a declared parameter. *)
Definition declared_read (name : string) (fallback : option JVal) : bool :=
  existsb (fun p => String.eqb (prop_name p) name
                    && fallback_is_default fallback (prop_default p))
    Authentica.properties.

(** ** The calls of a turn, in order *)

Definition is_read_at (i : nat) (e : Event) : bool :=
  match e with
  | CallGetNodeParameter _ j _ => j =? i
  | _ => false
  end.

Fixpoint skip_reads (i : nat) (t : list Event) : list Event :=
  match t with
  | e :: t' => if is_read_at i e then skip_reads i t' else t
  | [] => []
  end.

(** The calls of the turn of item [i]: parameter reads at index [i]; then,
    possibly, the credential lookup, followed by the request unless the
    lookup failed; then, when the item failed, the continue-on-fail query. *)
Definition turn_shape (i : nat) (t : list Event) : bool :=
  match skip_reads i t with
  | [] => true
  | [CallContinueOnFail] => true
  | [CallGetCredentials _; CallContinueOnFail] => true
  | [CallGetCredentials _; CallHttpRequest _ _ _] => true
  | [CallGetCredentials _; CallHttpRequest _ _ _; CallContinueOnFail] => true
  | _ => false
  end.

(** The three requests the node knows. *)
Inductive endpoint_request : IHttpRequestOptions -> Prop :=
| endpoint_send creds m k c :
    k = "phone" \/ k = "email" ->
    endpoint_request
      (mkOptions POST (baseUrl_of creds ++ "/api/v2/send-otp")%string
         request_headers true (Some [("method", m); (k, c)]))
| endpoint_verify creds otp k c :
    k = "phone" \/ k = "email" ->
    endpoint_request
      (mkOptions POST (baseUrl_of creds ++ "/api/v2/verify-otp")%string
         request_headers true (Some [("otp", otp); (k, c)]))
| endpoint_balance creds :
    endpoint_request
      (mkOptions GET (baseUrl_of creds ++ "/api/v2/balance")%string
         request_headers true None).

(** What holds of each call of a run. *)
Definition call_known (e : Event) : Prop :=
  match e with
  | CallGetNodeParameter name _ fallback => declared_read name fallback = true
  | CallGetCredentials n => In (n, true) Authentica.credentials
  | CallHttpRequest c o _ =>
      In (c, true) Authentica.credentials /\ endpoint_request o
  | CallContinueOnFail => True
  end.

Definition is_continue (e : Event) : bool :=
  match e with
  | CallContinueOnFail => true
  | _ => false
  end.

(** A record that carries the index of the item it is paired with. *)
Definition is_paired (r : INodeExecutionData) : bool :=
  match pairedItem r with
  | Some _ => true
  | None => false
  end.

(** The host [this] with other input items. *)
Definition with_input {W} (this : IExecuteFunctions W)
    (items : list INodeExecutionData) : IExecuteFunctions W :=
  mkHost items (resolveParameter this) (credentialStore this)
    (continueOnFailSetting this) (transport this).

(** * Properties *)

(** ** Validation: [trim], the regular expressions, [isE164] and [isEmail] *)

Lemma match_quant_spec (p : ascii -> bool) (k : list ascii -> bool) :
  forall s lo hi,
    match_quant p lo hi k s = true <->
    exists s1 s2, s = s1 ++ s2 /\ forallb p s1 = true /\
                  lo <= length s1 /\ within hi (length s1) /\ k s2 = true.
Proof.
  induction s as [|c s IH]; intros lo hi; simpl.
  - rewrite andb_true_iff, Nat.eqb_eq. split.
    + intros [-> Hk]. exists [], []. simpl. repeat split; auto.
      destruct hi; simpl; lia.
    + intros (s1 & s2 & E & _ & Hlo & _ & Hk).
      symmetry in E. apply app_eq_nil in E as [-> ->]. simpl in Hlo.
      split; [lia | exact Hk].
  - rewrite orb_true_iff, !andb_true_iff, Nat.eqb_eq, IH. split.
    + intros [[[Hp Hm] (s1 & s2 & -> & Hall & Hlo & Hhi & Hk)] | [-> Hk]].
      * exists (c :: s1), s2. simpl. rewrite Hp, Hall.
        repeat split; auto; [lia|].
        destruct hi as [[|h]|]; simpl in *; try discriminate; auto; lia.
      * exists [], (c :: s). simpl. repeat split; auto.
        destruct hi; simpl; lia.
    + intros (s1 & s2 & E & Hall & Hlo & Hhi & Hk).
      destruct s1 as [|c' s1]; simpl in *.
      * right. subst s2. split; [lia | exact Hk].
      * injection E as <- ->. apply andb_true_iff in Hall as [Hp Hall].
        left. split.
        { split; [exact Hp|]. destruct hi as [[|h]|]; simpl in *; auto; lia. }
        exists s1, s2. repeat split; auto; [lia|].
        destruct hi as [[|h]|]; simpl in *; auto; lia.
Qed.

Lemma at_end_nil (s : list ascii) : at_end s = true <-> s = [].
Proof. destruct s; simpl; split; congruence. Qed.

(** A class taken exactly once is a single character of the class. *)
Lemma once_spec (p : ascii -> bool) (k : list ascii -> bool) (s : list ascii) :
  match_quant p 1 (Some 1) k s = true <->
  exists c s2, s = c :: s2 /\ p c = true /\ k s2 = true.
Proof.
  rewrite match_quant_spec. split.
  - intros (s1 & s2 & -> & Hall & Hlo & Hhi & Hk). simpl in Hhi.
    destruct s1 as [|c [|c' s1]]; simpl in *; try lia.
    exists c, s2. rewrite andb_true_r in Hall. auto.
  - intros (c & s2 & -> & Hp & Hk). exists [c], s2. simpl.
    rewrite Hp. repeat split; auto.
Qed.

(** A class taken one or more times is a non-empty run of the class. *)
Lemma plus_spec (p : ascii -> bool) (k : list ascii -> bool) (s : list ascii) :
  match_quant p 1 None k s = true <->
  exists s1 s2, s = s1 ++ s2 /\ s1 <> [] /\ forallb p s1 = true /\ k s2 = true.
Proof.
  rewrite match_quant_spec. split.
  - intros (s1 & s2 & -> & Hall & Hlo & _ & Hk). exists s1, s2.
    repeat split; auto. intros ->. simpl in Hlo. lia.
  - intros (s1 & s2 & -> & Hne & Hall & Hk). exists s1, s2.
    repeat split; auto. destruct s1; [congruence | simpl; lia].
Qed.

Lemma is_char_eq (x c : ascii) : is_char x c = true <-> c = x.
Proof. unfold is_char. apply Ascii.eqb_eq. Qed.

Lemma re_E164_spec (t : list ascii) :
  match_regex re_E164 t = true <-> E164_form t.
Proof.
  unfold re_E164, E164_form, once, between. simpl. rewrite once_spec. split.
  - intros (c & s2 & -> & Hc & H). apply is_char_eq in Hc as ->.
    apply once_spec in H as (d & s3 & -> & Hd & H).
    apply match_quant_spec in H as (ds & e & -> & Hds & Hlo & Hhi & He).
    apply at_end_nil in He as ->. rewrite app_nil_r.
    exists d, ds. simpl in Hhi. auto.
  - intros (d & ds & -> & Hd & Hds & Hlen).
    exists "+"%char, (d :: ds). split; [reflexivity|].
    split; [apply is_char_eq; reflexivity|].
    apply once_spec. exists d, ds. repeat split; auto.
    apply match_quant_spec. exists ds, []. rewrite app_nil_r. simpl.
    repeat split; auto; lia.
Qed.

Lemma re_email_spec (t : list ascii) :
  match_regex re_email t = true <-> email_form t.
Proof.
  unfold re_email, email_form, once, plus. simpl. rewrite plus_spec. split.
  - intros (a & r1 & -> & Ha & Hpa & H).
    apply once_spec in H as (x & r2 & -> & Hx & H). apply is_char_eq in Hx as ->.
    apply plus_spec in H as (b & r3 & -> & Hb & Hpb & H).
    apply once_spec in H as (y & r4 & -> & Hy & H). apply is_char_eq in Hy as ->.
    apply plus_spec in H as (c & e & -> & Hc & Hpc & He).
    apply at_end_nil in He as ->. rewrite app_nil_r.
    exists a, b, c. repeat split; auto.
  - intros (a & b & c & -> & Ha & Hb & Hc & Hpa & Hpb & Hpc).
    exists a, ("@"%char :: b ++ "."%char :: c). repeat split; auto.
    apply once_spec. exists "@"%char, (b ++ "."%char :: c).
    repeat split; auto. apply plus_spec.
    exists b, ("."%char :: c). repeat split; auto.
    apply once_spec. exists "."%char, c. repeat split; auto.
    apply plus_spec. exists c, []. rewrite app_nil_r. repeat split; auto.
Qed.

Lemma trimStart_split (l : list ascii) :
  exists a, l = a ++ trimStart l /\ all_space a.
Proof.
  induction l as [|c l (a & E & Ha)]; simpl.
  - exists []. split; reflexivity.
  - destruct (is_space c) eqn:Hc.
    + exists (c :: a). split; [simpl; congruence|].
      unfold all_space in *. simpl. now rewrite Hc.
    + exists []. split; reflexivity.
Qed.

Lemma trimStart_skip (a l : list ascii) :
  all_space a -> trimStart (a ++ l) = trimStart l.
Proof.
  unfold all_space. induction a as [|c a IH]; simpl; [reflexivity|].
  intros H. apply andb_true_iff in H as [-> H]. auto.
Qed.

Lemma trimStart_all_space (a : list ascii) : all_space a -> trimStart a = [].
Proof.
  intros H. rewrite <- (app_nil_r a). now rewrite trimStart_skip.
Qed.

Lemma trimStart_keep (t l : list ascii) :
  no_space t -> t <> [] -> trimStart (t ++ l) = t ++ l.
Proof.
  unfold no_space. destruct t as [|c t]; [congruence|]. simpl.
  intros H _. apply andb_true_iff in H as [H _].
  apply negb_true_iff in H. now rewrite H.
Qed.

Lemma forallb_rev (p : ascii -> bool) (l : list ascii) :
  forallb p (rev l) = forallb p l.
Proof.
  induction l as [|c l IH]; simpl; [reflexivity|].
  rewrite forallb_app, IH. simpl. rewrite andb_true_r. apply andb_comm.
Qed.

Lemma trimEnd_split (l : list ascii) :
  exists b, l = trimEnd l ++ b /\ all_space b.
Proof.
  destruct (trimStart_split (rev l)) as (a & E & Ha).
  exists (rev a). split.
  - unfold trimEnd. rewrite <- rev_app_distr, <- E. symmetry. apply rev_involutive.
  - unfold all_space. now rewrite forallb_rev.
Qed.

(** [trim] removes a white-space prefix and a white-space suffix. *)
Lemma trim_split (l : list ascii) :
  exists a b, l = a ++ trimEnd (trimStart l) ++ b /\ all_space a /\ all_space b.
Proof.
  destruct (trimStart_split l) as (a & E & Ha).
  destruct (trimEnd_split (trimStart l)) as (b & E' & Hb).
  exists a, b. split; [|split; assumption]. now rewrite <- E', <- E.
Qed.

(** A text without white space comes back unchanged from its padded form. *)
Lemma trim_exact (a t b : list ascii) :
  all_space a -> all_space b -> no_space t ->
  trimEnd (trimStart (a ++ t ++ b)) = t.
Proof.
  intros Ha Hb Ht. rewrite trimStart_skip by assumption.
  destruct t as [|c t].
  - simpl. now rewrite trimStart_all_space.
  - rewrite trimStart_keep by (assumption || discriminate).
    unfold trimEnd. rewrite rev_app_distr.
    rewrite trimStart_skip by (unfold all_space; now rewrite forallb_rev).
    rewrite <- (app_nil_r (rev (c :: t))).
    rewrite trimStart_keep.
    + rewrite app_nil_r. apply rev_involutive.
    + unfold no_space. now rewrite forallb_rev.
    + simpl. intros E. apply app_eq_nil in E as [_ E]. discriminate.
Qed.

Lemma forallb_weaken (p q : ascii -> bool) (l : list ascii) :
  (forall c, p c = true -> q c = true) ->
  forallb p l = true -> forallb q l = true.
Proof.
  intros Hpq. rewrite !forallb_forall. auto.
Qed.

Lemma digit_not_space (c : ascii) : is_digit c = true -> negb (is_space c) = true.
Proof.
  unfold is_digit, is_space. intros H. apply andb_true_iff in H as [H1 H2].
  apply Nat.leb_le in H1, H2. apply negb_true_iff.
  repeat (apply orb_false_iff; split).
  - apply andb_false_iff. right. apply Nat.leb_gt. lia.
  - apply Nat.eqb_neq. lia.
  - apply Nat.eqb_neq. lia.
Qed.

Lemma digit19_is_digit (c : ascii) : is_digit19 c = true -> is_digit c = true.
Proof.
  unfold is_digit19, is_digit. intros H. apply andb_true_iff in H as [H1 H2].
  apply Nat.leb_le in H1. apply andb_true_iff. split; [|exact H2].
  apply Nat.leb_le. lia.
Qed.

Lemma not_space_at_not_space (c : ascii) :
  not_space_at c = true -> negb (is_space c) = true.
Proof. unfold not_space_at. intros H. now apply andb_true_iff in H. Qed.

Lemma E164_form_no_space (t : list ascii) : E164_form t -> no_space t.
Proof.
  intros (d & ds & -> & Hd & Hds & _). unfold no_space. simpl.
  rewrite (digit_not_space _ (digit19_is_digit _ Hd)). simpl.
  exact (forallb_weaken _ _ _ digit_not_space Hds).
Qed.

Lemma E164_form_not_empty : ~ E164_form [].
Proof. intros (d & ds & E & _). discriminate. Qed.

Lemma email_form_not_empty : ~ email_form [].
Proof.
  intros (a & b & c & E & Ha & _). destruct a; [congruence | discriminate].
Qed.

Lemma email_form_no_space (t : list ascii) : email_form t -> no_space t.
Proof.
  intros (a & b & c & -> & _ & _ & _ & Ha & Hb & Hc). unfold no_space.
  rewrite forallb_app. simpl. rewrite forallb_app. simpl.
  rewrite (forallb_weaken _ _ _ not_space_at_not_space Ha).
  rewrite (forallb_weaken _ _ _ not_space_at_not_space Hb).
  rewrite (forallb_weaken _ _ _ not_space_at_not_space Hc). reflexivity.
Qed.

(** The shape of the strings a trimmed, anchored test accepts. *)
Lemma trimmed_test_spec (r : Regex) (form : list ascii -> Prop) :
  (forall t, match_regex r t = true <-> form t) ->
  (forall t, form t -> no_space t) ->
  ~ form [] ->
  forall v,
    match coalesce_trim v with
    | Ok t => Ok (regex_test r t)
    | Throw e => Throw e
    end = Ok true <->
    exists l t r',
      v = JStr (string_of_list_ascii (l ++ t ++ r')) /\
      all_space l /\ all_space r' /\ form t.
Proof.
  intros Hspec Hns Hne v.
  unfold coalesce_trim, nullish_coalesce, regex_test, trim.
  split.
  - destruct v; simpl; try discriminate.
    + intros H. injection H as H. apply Hspec in H. contradiction.
    + intros H. injection H as H. apply Hspec in H. contradiction.
    + rewrite list_ascii_of_string_of_list_ascii.
      intros H. injection H as H. apply Hspec in H.
      destruct (trim_split (list_ascii_of_string s)) as (a & b & E & Ha & Hb).
      exists a, (trimEnd (trimStart (list_ascii_of_string s))), b.
      repeat split; auto. rewrite <- E.
      now rewrite string_of_list_ascii_of_string.
  - intros (l & t & r' & -> & Hl & Hr & Hf). simpl.
    rewrite !list_ascii_of_string_of_list_ascii.
    rewrite trim_exact by auto. f_equal. now apply Hspec.
Qed.

(** C8. [isE164] returns true exactly for the strings that are, between
    leading and trailing white space, a [+], a digit 1-9 and 6 to 14 further
    digits; [isEmail] returns true exactly for the strings that are, between
    leading and trailing white space, three non-empty runs of characters
    other than white space and [@], separated by an [@] and a dot.  Both read
    null and undefined as the empty string and return false on it. *)
Theorem C8_validators :
  (forall v, isE164 v = Ok true <->
     exists l t r, v = JStr (string_of_list_ascii (l ++ t ++ r)) /\
                   all_space l /\ all_space r /\ E164_form t) /\
  (forall v, isEmail v = Ok true <->
     exists l t r, v = JStr (string_of_list_ascii (l ++ t ++ r)) /\
                   all_space l /\ all_space r /\ email_form t) /\
  (isE164 JNull = isE164 (JStr "") /\ isE164 JUndefined = isE164 (JStr "") /\
   isE164 (JStr "") = Ok false) /\
  (isEmail JNull = isEmail (JStr "") /\ isEmail JUndefined = isEmail (JStr "") /\
   isEmail (JStr "") = Ok false).
Proof.
  split; [|split; [|split]].
  - apply trimmed_test_spec;
      [exact re_E164_spec | exact E164_form_no_space | exact E164_form_not_empty].
  - apply trimmed_test_spec;
      [exact re_email_spec | exact email_form_no_space | exact email_form_not_empty].
  - repeat split.
  - repeat split.
Qed.


(** A Saudi mobile number and an address, each padded with white space. *)
Lemma C8_witness :
  isE164 (JStr "  +966512345678 ") = Ok true /\
  isEmail (JStr " user@example.com  ") = Ok true.
Proof.
  destruct C8_validators as (Hphone & Hmail & _). split.
  - apply Hphone.
    exists (list_ascii_of_string "  "),
           (list_ascii_of_string "+966512345678"),
           (list_ascii_of_string " ").
    repeat split.
    exists "9"%char, (list_ascii_of_string "66512345678").
    repeat split; simpl; lia.
  - apply Hmail.
    exists (list_ascii_of_string " "),
           (list_ascii_of_string "user@example.com"),
           (list_ascii_of_string "  ").
    repeat split.
    exists (list_ascii_of_string "user"),
           (list_ascii_of_string "example"),
           (list_ascii_of_string "com").
    repeat split; discriminate.
Defined.

(** 7 to 15 digits in all. *)
Lemma E164_form_digits (t : list ascii) :
  E164_form t ->
  exists ds, t = "+"%char :: ds /\ forallb is_digit ds = true /\
             7 <= length ds <= 15.
Proof.
  intros (d & ds & -> & Hd & Hds & Hlen). exists (d :: ds). simpl.
  rewrite (digit19_is_digit _ Hd), Hds. repeat split; lia.
Qed.

Example isE164_sa : isE164 (JStr "+966512345678") = Ok true.
Proof. reflexivity. Qed.
Example isE164_padded : isE164 (JStr "  +966512345678 ") = Ok true.
Proof. reflexivity. Qed.
Example isE164_short : isE164 (JStr "+123456") = Ok false.
Proof. reflexivity. Qed.
Example isE164_7 : isE164 (JStr "+1234567") = Ok true.
Proof. reflexivity. Qed.
Example isE164_15 : isE164 (JStr "+123456789012345") = Ok true.
Proof. reflexivity. Qed.
Example isE164_16 : isE164 (JStr "+1234567890123456") = Ok false.
Proof. reflexivity. Qed.
Example isE164_zero : isE164 (JStr "+0234567890") = Ok false.
Proof. reflexivity. Qed.
Example isEmail_ok : isEmail (JStr " user@example.com ") = Ok true.
Proof. reflexivity. Qed.
Example isEmail_dots : isEmail (JStr "a.b@c.d.e") = Ok true.
Proof. reflexivity. Qed.
Example isEmail_two_at : isEmail (JStr "a@b@c.d") = Ok false.
Proof. reflexivity. Qed.
Example isEmail_no_dot : isEmail (JStr "a@bc") = Ok false.
Proof. reflexivity. Qed.
Example isEmail_inner_space : isEmail (JStr "a b@c.d") = Ok false.
Proof. reflexivity. Qed.
Example isEmail_null : isEmail JNull = Ok false.
Proof. reflexivity. Qed.

(** ** Runs on concrete hosts *)

Example run_send_two_items :
  fst (execute (Demo.host 2 (Demo.with_raw Demo.send_sms) true Demo.serving) Demo.start)
  = Ok [[mkItem [("success", JBool true);
                 ("raw", JObj [("data", JObj [("balance", JNum 100)])])] None;
         mkItem [("error", JStr "Phone must be E.164, e.g. +9665XXXXXXX")] (Some 1)]].
Proof. reflexivity. Qed.

Example run_send_abort :
  fst (execute (Demo.host 2 Demo.send_sms false Demo.serving) Demo.start)
  = Throw (NodeApiError phone_error 1).
Proof. reflexivity. Qed.

Example run_balance_three_items :
  fst (execute (Demo.host 3 Demo.balance true Demo.serving) Demo.start)
  = Ok [[mkItem [("balance", JNum 100)] None;
         mkItem [("balance", JNum 99)] None;
         mkItem [("balance", JNum 98)] None]].
Proof. reflexivity. Qed.

Example run_balance_calls :
  calls (snd (execute (Demo.host 1 Demo.balance true Demo.serving) Demo.start))
  = [CallGetNodeParameter "resource" 0 None;
     CallGetNodeParameter "operation" 0 None;
     CallGetNodeParameter "includeRaw" 0 (Some (JBool false));
     CallGetCredentials "authenticaApi";
     CallHttpRequest "authenticaApi"
       (mkOptions GET "https://staging.authentica.sa/api/v2/balance"
          request_headers true None)
       (Ok (JObj [("data", JObj [("balance", JNum 100)])]))].
Proof. reflexivity. Qed.

Example run_verify_email_calls :
  http_calls (calls (snd (execute (Demo.host 1 Demo.verify_email true Demo.serving) Demo.start)))
  = [CallHttpRequest "authenticaApi"
       (mkOptions POST "https://staging.authentica.sa/api/v2/verify-otp"
          request_headers true
          (Some [("otp", JStr "123456"); ("email", JStr "user@example.com")]))
       (Ok (JObj [("data", JObj [("balance", JNum 100)])]))].
Proof. reflexivity. Qed.

Example run_no_branch :
  fst (execute (Demo.host 2 [("resource", Demo.const (JStr "account"));
                             ("operation", Demo.const (JStr "send"))]
                  false Demo.serving) Demo.start)
  = Ok [[mkItem [] None; mkItem [] None]].
Proof. reflexivity. Qed.

Example run_balance_null_response :
  fst (execute (Demo.host 1 Demo.balance true (Demo.answering JNull)) Demo.start)
  = Ok [[mkItem [("error", JStr "Cannot read properties of null")] (Some 0)]].
Proof. reflexivity. Qed.

Example run_balance_bare_number :
  fst (execute (Demo.host 1 (Demo.with_raw Demo.balance) true
                  (Demo.answering (JNum 0))) Demo.start)
  = Ok [[mkItem [("balance", JUndefined)] None]].
Proof. reflexivity. Qed.

Example run_balance_refused :
  fst (execute (Demo.host 2 Demo.balance true Demo.refusing) Demo.start)
  = Ok [[mkItem [("error", JStr "connect ECONNREFUSED")] (Some 0);
         mkItem [("error", JStr "connect ECONNREFUSED")] (Some 1)]].
Proof. reflexivity. Qed.

Example run_send_phone_not_a_string :
  fst (execute (Demo.host 1 [("resource", Demo.const (JStr "otp"));
                             ("operation", Demo.const (JStr "send"));
                             ("otpMethod", Demo.const (JStr "sms"));
                             ("phone", Demo.const (JNum 966512345678))]
                  false Demo.serving) Demo.start)
  = Throw (NodeApiError
             (TypeError "(intermediate value).trim is not a function") 0).
Proof. reflexivity. Qed.

Example run_missing_operation :
  fst (execute (Demo.host 3 [("resource", Demo.const (JStr "otp"))]
                  true Demo.serving) Demo.start)
  = Throw (Uncaught (HostError "Could not get parameter")).
Proof. reflexivity. Qed.

(** ** The loop body, block by block *)

Lemma strict_eq_str_true (v : JVal) (lit : string) :
  strict_eq_str v lit = true <-> v = JStr lit.
Proof.
  destruct v; simpl; try (split; congruence).
  rewrite String.eqb_eq. split; congruence.
Qed.

Lemma item_body_branch {W} (this : IExecuteFunctions W)
    (resource operation includeRaw : JVal) (i : nat) (s : State W) :
  item_body this resource operation includeRaw i s =
  match branch_of resource operation with
  | SendOtp => finish includeRaw (send_block this i s)
  | VerifyOtp => finish includeRaw (verify_block this i s)
  | GetBalance => finish includeRaw (getBalance_block this i s)
  | NoBranch => (Ok (mkItem [] None), s)
  end.
Proof.
  unfold item_body, branch_of, bind, ret, finish.
  destruct (strict_eq_str resource "otp") eqn:Er; simpl.
  - apply strict_eq_str_true in Er as ->. simpl.
    destruct (strict_eq_str operation "send") eqn:Eo.
    + apply strict_eq_str_true in Eo as ->. simpl.
      destruct (send_block this i s) as [[[out res]|e] s']; reflexivity.
    + destruct (strict_eq_str operation "verify") eqn:Ev.
      * destruct (verify_block this i s) as [[[out res]|e] s']; reflexivity.
      * unfold attach_raw. simpl. now rewrite andb_false_r.
  - destruct (strict_eq_str resource "account") eqn:Ea; simpl.
    + destruct (strict_eq_str operation "getBalance") eqn:Eg.
      * destruct (getBalance_block this i s) as [[[out res]|e] s']; reflexivity.
      * unfold attach_raw. simpl. now rewrite andb_false_r.
    + unfold attach_raw. simpl. now rewrite andb_false_r.
Qed.

Lemma doRequest_run {W} (this : IExecuteFunctions W) (m : HttpMethod)
    (path : string) (b : option IDataObject) (i : nat) (s : State W) :
  doRequest this m path b i s =
  match credentialStore this "authenticaApi" with
  | Throw msg =>
      (Throw (HostError msg), record (CallGetCredentials "authenticaApi") s)
  | Ok creds =>
      let options := request_options m (baseUrl_of creds) path b in
      let (r, w) := transport this "authenticaApi" options (world s) in
      (of_host r,
       mkState w (calls s ++ [CallGetCredentials "authenticaApi";
                              CallHttpRequest "authenticaApi" options r]))
  end.
Proof.
  unfold doRequest, bind, getCredentials, try_catch,
    httpRequestWithAuthentication, throw, ret.
  destruct (credentialStore this "authenticaApi") as [creds|msg]; simpl;
    [|reflexivity].
  destruct (transport _ _ _ _) as [[v|msg] w]; simpl;
    rewrite <- app_assoc; reflexivity.
Qed.

(** ** Validation guards the request *)

Lemma http_calls_app (l1 l2 : list Event) :
  http_calls (l1 ++ l2) = http_calls l1 ++ http_calls l2.
Proof. apply filter_app. Qed.

(** Unfold the monad and the host calls of a block down to the host's pure
    functions. *)
Ltac unfold_node :=
  unfold send_block, verify_block, getBalance_block, require, bind, ret, lift,
    throw, getNodeParameter, continueOnFail, finish.

(** Bring [http_calls (calls s ++ ...)] to [http_calls (calls s) ++ ...]. *)
Ltac http_norm :=
  unfold record; simpl calls;
  rewrite ?http_calls_app; simpl http_calls; rewrite ?app_nil_r.

(** Run a request whose credential lookup and transport are unknown. *)
Ltac run_request this :=
  rewrite doRequest_run;
  destruct (credentialStore this "authenticaApi") as [?creds|?msg]; simpl;
  [ match goal with
    | |- context [transport this ?n ?o ?x] =>
        destruct (transport this n o x) as [[?v|?msg] ?w]; simpl
    end
  | ].

(** The validators throw nothing but a [TypeError]. *)
Lemma isE164_throws (v : JVal) (e : JsError) :
  isE164 v = Throw e -> exists m, e = TypeError m.
Proof.
  unfold isE164, coalesce_trim, nullish_coalesce.
  destruct v; simpl; intros H; try discriminate; injection H as <-; eauto.
Qed.

Lemma isEmail_throws (v : JVal) (e : JsError) :
  isEmail v = Throw e -> exists m, e = TypeError m.
Proof.
  unfold isEmail, coalesce_trim, nullish_coalesce.
  destruct v; simpl; intros H; try discriminate; injection H as <-; eauto.
Qed.

(** Close the three parts of [guards] once the outcome is known. *)
Ltac close_guards this :=
  repeat split; intros;
  try discriminate; try congruence;
  try (match goal with H : exists _, _ |- _ => destruct H; discriminate end);
  destruct (continueOnFailSetting this); simpl; http_norm; reflexivity.

Lemma send_guarded {W} (this : IExecuteFunctions W) (includeRaw : JVal)
    (i : nat) (s : State W) (method phone email : JVal) :
  resolveParameter this "otpMethod" i None = Ok method ->
  resolveParameter this "phone" i (Some (JStr "")) = Ok phone ->
  resolveParameter this "email" i (Some (JStr "")) = Ok email ->
  guards (if strict_eq_str method "email" then isEmail email else isE164 phone)
         (if strict_eq_str method "email" then email_error else phone_error)
         (fst (item_body this (JStr "otp") (JStr "send") includeRaw i s))
         s
         (snd (item_step this (JStr "otp") (JStr "send") includeRaw i s)).
Proof.
  intros Hm Hp He. unfold guards, item_step. rewrite item_body_branch.
  simpl branch_of. unfold_node. rewrite Hm, Hp, He. simpl.
  destruct (strict_eq_str method "email"); simpl.
  - destruct (isEmail email) as [[|]|e] eqn:Ec; simpl;
      [run_request this | | apply isEmail_throws in Ec as [m ->] ];
      close_guards this.
  - destruct (isE164 phone) as [[|]|e] eqn:Ec; simpl;
      [run_request this | | apply isE164_throws in Ec as [m ->] ];
      close_guards this.
Qed.

Lemma verify_guarded {W} (this : IExecuteFunctions W) (includeRaw : JVal)
    (i : nat) (s : State W) (verifyWith otp contact : JVal) :
  resolveParameter this "verifyWith" i None = Ok verifyWith ->
  resolveParameter this "otp" i None = Ok otp ->
  resolveParameter this
    (if strict_eq_str verifyWith "email" then "verifyEmail" else "verifyPhone")
    i None = Ok contact ->
  guards (if strict_eq_str verifyWith "email" then isEmail contact
          else isE164 contact)
         (if strict_eq_str verifyWith "email" then email_error else phone_error)
         (fst (item_body this (JStr "otp") (JStr "verify") includeRaw i s))
         s
         (snd (item_step this (JStr "otp") (JStr "verify") includeRaw i s)).
Proof.
  intros Hw Ho Hc. unfold guards, item_step. rewrite item_body_branch.
  simpl branch_of. unfold_node. rewrite Hw, Ho. simpl.
  destruct (strict_eq_str verifyWith "email"); simpl; rewrite Hc; simpl.
  - destruct (isEmail contact) as [[|]|e] eqn:Ec; simpl;
      [run_request this | | apply isEmail_throws in Ec as [m ->] ];
      close_guards this.
  - destruct (isE164 contact) as [[|]|e] eqn:Ec; simpl;
      [run_request this | | apply isE164_throws in Ec as [m ->] ];
      close_guards this.
Qed.

(** C1. In an OTP operation the contact identifier is checked before the
    item's request is dispatched.  For [send], when the three parameters of
    the item resolve, the identifier is [phone] under [isE164] unless
    [otpMethod] is ['email'], and [email] under [isEmail] when it is; for
    [verify] it is [verifyPhone] or [verifyEmail] in the same way, by
    [verifyWith].  In each case the [try] body raises a [NodeOperationError]
    exactly when the check returns false (and it is then the error of that
    check), and unless the check returns true the item's turn of the loop
    makes no request. *)
Theorem C1_validation_guards_dispatch {W} (this : IExecuteFunctions W)
    (includeRaw : JVal) (i : nat) (s : State W) :
  (forall method phone email,
     resolveParameter this "otpMethod" i None = Ok method ->
     resolveParameter this "phone" i (Some (JStr "")) = Ok phone ->
     resolveParameter this "email" i (Some (JStr "")) = Ok email ->
     guards (if strict_eq_str method "email" then isEmail email
             else isE164 phone)
            (if strict_eq_str method "email" then email_error else phone_error)
            (fst (item_body this (JStr "otp") (JStr "send") includeRaw i s))
            s
            (snd (item_step this (JStr "otp") (JStr "send") includeRaw i s)))
  /\
  (forall verifyWith otp contact,
     resolveParameter this "verifyWith" i None = Ok verifyWith ->
     resolveParameter this "otp" i None = Ok otp ->
     resolveParameter this
       (if strict_eq_str verifyWith "email" then "verifyEmail"
        else "verifyPhone") i None = Ok contact ->
     guards (if strict_eq_str verifyWith "email" then isEmail contact
             else isE164 contact)
            (if strict_eq_str verifyWith "email" then email_error
             else phone_error)
            (fst (item_body this (JStr "otp") (JStr "verify") includeRaw i s))
            s
            (snd (item_step this (JStr "otp") (JStr "verify") includeRaw i s))).
Proof.
  split.
  - intros method phone email. apply send_guarded.
  - intros verifyWith otp contact. apply verify_guarded.
Qed.

(** On the second item of a run that sends by SMS to a number without its
    [+], the error is raised and the remote is not called. *)
Lemma C1_witness :
  fst (item_body (Demo.host 2 Demo.send_sms true Demo.serving)
         (JStr "otp") (JStr "send") (JBool false) 1 Demo.start)
    = Throw phone_error /\
  http_calls (calls (snd (item_step (Demo.host 2 Demo.send_sms true Demo.serving)
         (JStr "otp") (JStr "send") (JBool false) 1 Demo.start)))
    = [].
Proof.
  destruct (C1_validation_guards_dispatch
              (Demo.host 2 Demo.send_sms true Demo.serving)
              (JBool false) 1 Demo.start) as [Hsend _].
  destruct (Hsend (JStr "sms") (JStr "0512345678") (JStr ""))
    as (Hraise & _ & Hquiet); try reflexivity.
  split.
  - apply Hraise. reflexivity.
  - apply Hquiet. discriminate.
Defined.

(** ** The shape of the request *)

Lemma send_dispatch {W} (this : IExecuteFunctions W) (includeRaw : JVal)
    (i : nat) (s : State W) creds (method phone email : JVal) :
  credentialStore this "authenticaApi" = Ok creds ->
  resolveParameter this "otpMethod" i None = Ok method ->
  resolveParameter this "phone" i (Some (JStr "")) = Ok phone ->
  resolveParameter this "email" i (Some (JStr "")) = Ok email ->
  (if strict_eq_str method "email" then isEmail email else isE164 phone)
    = Ok true ->
  exists r,
    calls_since s
      (snd (item_body this (JStr "otp") (JStr "send") includeRaw i s))
      [CallGetNodeParameter "otpMethod" i None;
       CallGetNodeParameter "phone" i (Some (JStr ""));
       CallGetNodeParameter "email" i (Some (JStr ""));
       CallGetCredentials "authenticaApi";
       CallHttpRequest "authenticaApi"
         (send_request creds method
            (if strict_eq_str method "email" then email else phone)) r].
Proof.
  intros Hc Hm Hp He Hv. rewrite item_body_branch. simpl branch_of.
  unfold_node. rewrite Hm, Hp, He. simpl. unfold send_request.
  destruct (strict_eq_str method "email"); simpl; rewrite Hv; simpl;
    rewrite doRequest_run, Hc; simpl;
    destruct (transport _ _ _ _) as [[v|msg] w]; simpl;
    eexists; rewrite <- !app_assoc; reflexivity.
Qed.

Lemma verify_dispatch {W} (this : IExecuteFunctions W) (includeRaw : JVal)
    (i : nat) (s : State W) creds (verifyWith otp contact : JVal) :
  credentialStore this "authenticaApi" = Ok creds ->
  resolveParameter this "verifyWith" i None = Ok verifyWith ->
  resolveParameter this "otp" i None = Ok otp ->
  resolveParameter this
    (if strict_eq_str verifyWith "email" then "verifyEmail" else "verifyPhone")
    i None = Ok contact ->
  (if strict_eq_str verifyWith "email" then isEmail contact else isE164 contact)
    = Ok true ->
  exists r,
    calls_since s
      (snd (item_body this (JStr "otp") (JStr "verify") includeRaw i s))
      [CallGetNodeParameter "verifyWith" i None;
       CallGetNodeParameter "otp" i None;
       CallGetNodeParameter
         (if strict_eq_str verifyWith "email" then "verifyEmail"
          else "verifyPhone") i None;
       CallGetCredentials "authenticaApi";
       CallHttpRequest "authenticaApi"
         (verify_request creds verifyWith otp contact) r].
Proof.
  intros Hc Hw Ho Hp Hv. rewrite item_body_branch. simpl branch_of.
  unfold_node. rewrite Hw, Ho. simpl. unfold verify_request.
  destruct (strict_eq_str verifyWith "email"); simpl; rewrite Hp; simpl;
    rewrite Hv; simpl; rewrite doRequest_run, Hc; simpl;
    destruct (transport _ _ _ _) as [[v|msg] w]; simpl;
    eexists; rewrite <- !app_assoc; reflexivity.
Qed.

Lemma balance_dispatch {W} (this : IExecuteFunctions W) (includeRaw : JVal)
    (i : nat) (s : State W) creds :
  credentialStore this "authenticaApi" = Ok creds ->
  exists r,
    calls_since s
      (snd (item_body this (JStr "account") (JStr "getBalance") includeRaw i s))
      [CallGetCredentials "authenticaApi";
       CallHttpRequest "authenticaApi" (balance_request creds) r].
Proof.
  intros Hc. rewrite item_body_branch. simpl branch_of.
  unfold_node. rewrite doRequest_run, Hc. simpl.
  destruct (transport _ _ _ _) as [[v|msg] w]; simpl.
  - destruct (balance_of v); simpl; eexists; reflexivity.
  - eexists; reflexivity.
Qed.

Lemma baseUrl_of_spec (creds : option ICredentialDataDecryptedObject) :
  baseUrl_of creds =
  match stored_baseUrl creds with
  | Some u => if String.eqb u "" then default_baseUrl else u
  | None => default_baseUrl
  end.
Proof. destruct creds as [c|]; reflexivity. Qed.

(** C2. With the credential resolved, an item that passes validation
    dispatches one request of the shape of its operation.  [send]: a POST to
    the base URL followed by [/api/v2/send-otp] whose JSON body holds
    [method] and either [phone] (when [otpMethod] is not ['email']) or
    [email] (when it is), never both.  [verify]: a POST to the base URL
    followed by [/api/v2/verify-otp] whose body holds [otp] and either
    [phone] or [email].  [getBalance]: a GET to the base URL followed by
    [/api/v2/balance], without a body.  The base URL is the credential's
    [baseUrl], and [https://api.authentica.sa] when that is missing or
    empty. *)
Theorem C2_request_shape {W} (this : IExecuteFunctions W)
    (includeRaw : JVal) (i : nat) (s : State W)
    (creds : option ICredentialDataDecryptedObject) :
  credentialStore this "authenticaApi" = Ok creds ->
  (forall otpMethod phone email,
     resolveParameter this "otpMethod" i None = Ok otpMethod ->
     resolveParameter this "phone" i (Some (JStr "")) = Ok phone ->
     resolveParameter this "email" i (Some (JStr "")) = Ok email ->
     (if strict_eq_str otpMethod "email" then isEmail email else isE164 phone)
       = Ok true ->
     let contact := if strict_eq_str otpMethod "email" then email else phone in
     exists r,
       calls_since s
         (snd (item_body this (JStr "otp") (JStr "send") includeRaw i s))
         [CallGetNodeParameter "otpMethod" i None;
          CallGetNodeParameter "phone" i (Some (JStr ""));
          CallGetNodeParameter "email" i (Some (JStr ""));
          CallGetCredentials "authenticaApi";
          CallHttpRequest "authenticaApi" (send_request creds otpMethod contact) r]
       /\ method (send_request creds otpMethod contact) = POST
       /\ url (send_request creds otpMethod contact)
          = (baseUrl_of creds ++ "/api/v2/send-otp")%string
       /\ exists b, body (send_request creds otpMethod contact) = Some b
          /\ lookup_prop "method" b = Some otpMethod
          /\ lookup_prop "phone" b
             = (if strict_eq_str otpMethod "email" then None else Some phone)
          /\ lookup_prop "email" b
             = (if strict_eq_str otpMethod "email" then Some email else None))
  /\
  (forall verifyWith otp contact,
     resolveParameter this "verifyWith" i None = Ok verifyWith ->
     resolveParameter this "otp" i None = Ok otp ->
     resolveParameter this
       (if strict_eq_str verifyWith "email" then "verifyEmail"
        else "verifyPhone") i None = Ok contact ->
     (if strict_eq_str verifyWith "email" then isEmail contact
      else isE164 contact) = Ok true ->
     exists r,
       calls_since s
         (snd (item_body this (JStr "otp") (JStr "verify") includeRaw i s))
         [CallGetNodeParameter "verifyWith" i None;
          CallGetNodeParameter "otp" i None;
          CallGetNodeParameter
            (if strict_eq_str verifyWith "email" then "verifyEmail"
             else "verifyPhone") i None;
          CallGetCredentials "authenticaApi";
          CallHttpRequest "authenticaApi"
            (verify_request creds verifyWith otp contact) r]
       /\ method (verify_request creds verifyWith otp contact) = POST
       /\ url (verify_request creds verifyWith otp contact)
          = (baseUrl_of creds ++ "/api/v2/verify-otp")%string
       /\ exists b, body (verify_request creds verifyWith otp contact) = Some b
          /\ lookup_prop "otp" b = Some otp
          /\ lookup_prop "phone" b
             = (if strict_eq_str verifyWith "email" then None else Some contact)
          /\ lookup_prop "email" b
             = (if strict_eq_str verifyWith "email" then Some contact else None))
  /\
  (exists r,
     calls_since s
       (snd (item_body this (JStr "account") (JStr "getBalance") includeRaw i s))
       [CallGetCredentials "authenticaApi";
        CallHttpRequest "authenticaApi" (balance_request creds) r]
     /\ method (balance_request creds) = GET
     /\ url (balance_request creds) = (baseUrl_of creds ++ "/api/v2/balance")%string
     /\ body (balance_request creds) = None)
  /\
  baseUrl_of creds =
    match stored_baseUrl creds with
    | Some u => if String.eqb u "" then "https://api.authentica.sa" else u
    | None => "https://api.authentica.sa"
    end.
Proof.
  intros Hc. split; [|split; [|split]].
  - intros method phone email Hm Hp He Hv contact.
    destruct (send_dispatch this includeRaw i s Hc Hm Hp He Hv) as [r Hr].
    exists r. split; [exact Hr|]. repeat split.
    eexists. split; [reflexivity|]. subst contact.
    destruct (strict_eq_str method "email"); simpl; auto.
  - intros verifyWith otp contact Hw Ho Hp Hv.
    destruct (verify_dispatch this includeRaw i s Hc Hw Ho Hp Hv) as [r Hr].
    exists r. split; [exact Hr|]. repeat split.
    eexists. split; [reflexivity|].
    destruct (strict_eq_str verifyWith "email"); simpl; auto.
  - destruct (balance_dispatch this includeRaw i s Hc) as [r Hr].
    exists r. repeat split. exact Hr.
  - apply baseUrl_of_spec.
Qed.

(** The first item of a run that sends by SMS, on the staging credential. *)
Lemma C2_witness :
  exists r,
    calls (snd (item_body (Demo.host 2 Demo.send_sms true Demo.serving)
                  (JStr "otp") (JStr "send") (JBool false) 0 Demo.start))
    = [CallGetNodeParameter "otpMethod" 0 None;
       CallGetNodeParameter "phone" 0 (Some (JStr ""));
       CallGetNodeParameter "email" 0 (Some (JStr ""));
       CallGetCredentials "authenticaApi";
       CallHttpRequest "authenticaApi"
         (mkOptions POST "https://staging.authentica.sa/api/v2/send-otp"
            request_headers true
            (Some [("method", JStr "sms"); ("phone", JStr "+966512345678")])) r].
Proof.
  destruct (@C2_request_shape _ (Demo.host 2 Demo.send_sms true Demo.serving)
              (JBool false) 0 Demo.start (Some Demo.stored) eq_refl)
    as [Hsend _].
  destruct (Hsend (JStr "sms") (JStr "+966512345678") (JStr "")
              eq_refl eq_refl eq_refl eq_refl) as [r [Hr _]].
  exists r. exact Hr.
Defined.

(** ** The loop *)

Section Loop.
Context {W : Type} (this : IExecuteFunctions W).
Variables resource operation includeRaw : JVal.

Local Abbreviation step := (item_step this resource operation includeRaw).
Local Abbreviation loop := (for_items this resource operation includeRaw).
Local Abbreviation turns' := (turns this resource operation includeRaw).



Lemma for_items_ok :
  forall n i acc s out s',
    loop n i acc s = (Ok out, s') <->
    exists rs, out = acc ++ rs /\ length rs = n /\ turns' i s rs s'.
Proof.
  induction n as [|n IH]; intros i acc s out s'; simpl.
  - split.
    + intros H. injection H as <- <-. exists []. rewrite app_nil_r.
      repeat split. constructor.
    + intros (rs & -> & Hlen & Ht). destruct rs; [|discriminate].
      inversion Ht; subst. now rewrite app_nil_r.
  - destruct (step i s) as [[r|e] s1] eqn:Es.
    + rewrite IH. split.
      * intros (rs & -> & Hlen & Ht). exists (r :: rs).
        rewrite <- app_assoc. simpl. repeat split; [lia|].
        econstructor; eassumption.
      * intros (rs & -> & Hlen & Ht). inversion Ht; subst; [discriminate|].
        match goal with Hb : step i s = (Ok _, _) |- _ =>
          rewrite Es in Hb; injection Hb as <- <- end.
        eexists. rewrite <- app_assoc. simpl. repeat split; [|eassumption].
        simpl in Hlen. lia.
    + split; [discriminate|].
      intros (rs & -> & Hlen & Ht). inversion Ht; subst; [discriminate|].
      match goal with Hb : step i s = (Ok _, _) |- _ =>
        rewrite Es in Hb; discriminate end.
Qed.

Lemma for_items_throw :
  forall n i acc s e s',
    loop n i acc s = (Throw e, s') <->
    exists rs s1, length rs < n /\ turns' i s rs s1 /\
                  step (i + length rs) s1 = (Throw e, s').
Proof.
  induction n as [|n IH]; intros i acc s e s'; simpl.
  - split; [discriminate|]. intros (rs & s1 & Hlen & _). lia.
  - destruct (step i s) as [[r|e0] s1] eqn:Es.
    + rewrite IH. split.
      * intros (rs & s2 & Hlen & Ht & Hs). exists (r :: rs), s2. simpl.
        repeat split; [lia | econstructor; eassumption |].
        now replace (i + S (length rs)) with (S i + length rs) by lia.
      * intros (rs & s2 & Hlen & Ht & Hs). inversion Ht; subst.
        -- simpl in Hs. rewrite Nat.add_0_r in Hs. rewrite Es in Hs.
           discriminate.
        -- match goal with Hb : step i s = (Ok _, _) |- _ =>
             rewrite Es in Hb; injection Hb as <- <- end.
           eexists _, s2. simpl length in *. repeat split; [|eassumption|].
           ++ lia.
           ++ now replace (S i + length rs0) with (i + S (length rs0)) by lia.
    + split.
      * intros H. injection H as <- <-. exists [], s. simpl.
        rewrite Nat.add_0_r. repeat split; [lia | constructor | exact Es].
      * intros (rs & s2 & Hlen & Ht & Hs). inversion Ht; subst.
        -- simpl in Hs. rewrite Nat.add_0_r in Hs. rewrite Es in Hs.
           injection Hs as <- <-. reflexivity.
        -- match goal with Hb : step i s = (Ok _, _) |- _ =>
             rewrite Es in Hb; discriminate end.
Qed.

(** A turn leaves the loop only when continue-on-fail is off, with what
    [new NodeApiError] makes of the item's error. *)
Lemma item_step_throw (i : nat) (s s' : State W) (e : RunError) :
  step i s = (Throw e, s') <->
  continueOnFailSetting this = false /\
  exists e0 s1,
    item_body this resource operation includeRaw i s = (Throw e0, s1) /\
    e = new_NodeApiError e0 i /\ s' = record CallContinueOnFail s1.
Proof.
  unfold item_step, continueOnFail.
  destruct (item_body this resource operation includeRaw i s) as [[r|e0] s1].
  - split; [discriminate|]. intros (_ & e1 & s2 & H & _). discriminate.
  - destruct (continueOnFailSetting this).
    + split; [discriminate|]. intros [H _]. discriminate.
    + split.
      * intros H. injection H as <- <-. split; [reflexivity|]. eauto.
      * intros (_ & e1 & s2 & H & -> & ->). injection H as <- <-. reflexivity.
Qed.


Lemma item_step_passes (i : nat) (s s1 : State W) (r : INodeExecutionData) :
  item_body this resource operation includeRaw i s = (Ok r, s1) ->
  step i s = (Ok r, s1).
Proof. intros Hb. unfold item_step. now rewrite Hb. Qed.


Lemma turns_nth (rs : list INodeExecutionData) :
  forall i s s' k r,
    turns' i s rs s' -> nth_error rs k = Some r ->
    exists pre sk sk',
      length pre = k /\ turns' i s pre sk /\ step (i + k) sk = (Ok r, sk').
Proof.
  induction rs as [|r0 rs IH]; intros i s s' k r Ht Hk.
  - destruct k; discriminate.
  - inversion Ht; subst. destruct k as [|k]; simpl in Hk.
    + injection Hk as <-. exists [], s. eexists. rewrite Nat.add_0_r.
      repeat split; [constructor | eassumption].
    + match goal with Ha : turns _ _ _ _ (S i) _ rs _ |- _ =>
        destruct (IH _ _ _ _ _ Ha Hk) as (pre & sk & sk' & Hlen & Hp & Hs) end.
      exists (r0 :: pre), sk, sk'. simpl.
      repeat split; [lia | econstructor; eassumption |].
      now replace (i + S k) with (S i + k) by lia.
Qed.

End Loop.

(** [execute] once the three run-level parameters have resolved. *)
Lemma execute_run {W} (this : IExecuteFunctions W)
    (resource operation includeRaw : JVal) (s : State W) :
  resolveParameter this "resource" 0 None = Ok resource ->
  resolveParameter this "operation" 0 None = Ok operation ->
  resolveParameter this "includeRaw" 0 (Some (JBool false)) = Ok includeRaw ->
  execute this s =
  match for_items this resource operation includeRaw
          (length (inputData this)) 0 [] (after_header s) with
  | (Ok returnData, s') => (Ok [returnData], s')
  | (Throw e, s') => (Throw e, s')
  end.
Proof.
  intros Hr Ho Hi. unfold execute, getNodeParameter. now rewrite Hr, Ho, Hi.
Qed.

(** ** Errors: captured per item, or the run aborts *)




Example run_balance_rejected :
  fst (execute (Demo.host 2 Demo.balance false Demo.rejecting) Demo.start)
  = Throw (Rethrown (HostError (HostNodeApiError "Authorization failed"))).
Proof. reflexivity. Qed.

Example run_balance_rejected_captured :
  fst (execute (Demo.host 2 Demo.balance true Demo.rejecting) Demo.start)
  = Ok [[mkItem [("error", JStr "Authorization failed")] (Some 0);
         mkItem [("error", JStr "Authorization failed")] (Some 1)]].
Proof. reflexivity. Qed.

(** ** One record per input item *)

(** C4. When [execute] returns, it returns exactly one branch; the branch
    has one record per input item, and the record at position [i] is the one
    with which the turn of item [i] ended, be it the normalized response or
    the captured error.  When the resource and the operation select no
    block, every item still yields a record, the empty one. *)
Theorem C4_one_record_per_item {W} (this : IExecuteFunctions W)
    (s s' : State W) (branches : list (list INodeExecutionData)) :
  execute this s = (Ok branches, s') ->
  exists rs resource operation includeRaw,
    branches = [rs] /\
    length rs = length (inputData this) /\
    resolveParameter this "resource" 0 None = Ok resource /\
    resolveParameter this "operation" 0 None = Ok operation /\
    resolveParameter this "includeRaw" 0 (Some (JBool false)) = Ok includeRaw /\
    (forall i r,
       nth_error rs i = Some r ->
       exists si si',
         reaches this resource operation includeRaw (after_header s) i si /\
         item_step this resource operation includeRaw i si = (Ok r, si')) /\
    (branch_of resource operation = NoBranch ->
     forall i r, nth_error rs i = Some r -> r = mkItem [] None).
Proof.
  intros H.
  destruct (resolveParameter this "resource" 0 None) as [resource|m] eqn:Hr;
    [|unfold execute, getNodeParameter in H; rewrite Hr in H; discriminate].
  destruct (resolveParameter this "operation" 0 None) as [operation|m] eqn:Ho;
    [|unfold execute, getNodeParameter in H; rewrite Hr, Ho in H; discriminate].
  destruct (resolveParameter this "includeRaw" 0 (Some (JBool false)))
    as [includeRaw|m] eqn:Hi;
    [|unfold execute, getNodeParameter in H; rewrite Hr, Ho, Hi in H;
      discriminate].
  rewrite (execute_run this s Hr Ho Hi) in H.
  destruct (for_items _ _ _ _ _ _ _ _) as [[rd|e] s4] eqn:Hloop;
    [|discriminate].
  injection H as <- <-.
  apply for_items_ok in Hloop as (rs & -> & Hlen & Ht). simpl.
  assert (Hnth : forall i r,
             nth_error rs i = Some r ->
             exists si si',
               reaches this resource operation includeRaw (after_header s) i si /\
               item_step this resource operation includeRaw i si = (Ok r, si')).
  { intros i r Hn.
    destruct (turns_nth i Ht Hn) as (pre & sk & sk' & Hp & Htp & Hs).
    exists sk, sk'. split; [exists pre; auto | exact Hs]. }
  exists rs, resource, operation, includeRaw.
  repeat split; auto.
  intros Hnb i r Hn. destruct (Hnth i r Hn) as (si & si' & _ & Hs).
  unfold item_step in Hs. rewrite item_body_branch, Hnb in Hs.
  now injection Hs as <- _.
Qed.

(** A run over two items whose resource and operation select no block. *)
Lemma C4_witness :
  exists rs,
    fst (execute (Demo.host 2 [("resource", Demo.const (JStr "account"));
                               ("operation", Demo.const (JStr "send"))]
                    false Demo.serving) Demo.start) = Ok [rs] /\
    length rs = 2.
Proof.
  destruct (@C4_one_record_per_item _
              (Demo.host 2 [("resource", Demo.const (JStr "account"));
                            ("operation", Demo.const (JStr "send"))]
                 false Demo.serving)
              Demo.start _ _ eq_refl)
    as (rs & resource & operation & includeRaw & Hb & Hlen & _).
  exists rs. split; [|exact Hlen].
  simpl. injection Hb as <-. reflexivity.
Defined.

(** ** The output record *)

Lemma send_block_ok {W} (this : IExecuteFunctions W) (i : nat)
    (s s' : State W) (out : IDataObject) (res : JVal) :
  send_block this i s = (Ok (out, res), s') ->
  out = [("success", JBool true)] /\ answered s s' res.
Proof.
  unfold_node.
  destruct (resolveParameter this "otpMethod" i None) as [method|?]; simpl;
    [|discriminate].
  destruct (resolveParameter this "phone" i _) as [phone|?]; simpl;
    [|discriminate].
  destruct (resolveParameter this "email" i _) as [email|?]; simpl;
    [|discriminate].
  destruct (strict_eq_str method "email"); simpl.
  - destruct (isEmail email) as [[|]|?]; simpl; try discriminate.
    run_request this; try discriminate.
    intros H. injection H as <- <- <-. split; [reflexivity|].
    eexists _, _. split; [simpl; rewrite <- !app_assoc; reflexivity|reflexivity].
  - destruct (isE164 phone) as [[|]|?]; simpl; try discriminate.
    run_request this; try discriminate.
    intros H. injection H as <- <- <-. split; [reflexivity|].
    eexists _, _. split; [simpl; rewrite <- !app_assoc; reflexivity|reflexivity].
Qed.

Lemma verify_block_ok {W} (this : IExecuteFunctions W) (i : nat)
    (s s' : State W) (out : IDataObject) (res : JVal) :
  verify_block this i s = (Ok (out, res), s') ->
  out = [("verified", JBool true)] /\ answered s s' res.
Proof.
  unfold_node.
  destruct (resolveParameter this "verifyWith" i None) as [verifyWith|?];
    simpl; [|discriminate].
  destruct (resolveParameter this "otp" i None) as [otp|?]; simpl;
    [|discriminate].
  destruct (strict_eq_str verifyWith "email"); simpl.
  - destruct (resolveParameter this "verifyEmail" i None) as [v|?]; simpl;
      [|discriminate].
    destruct (isEmail v) as [[|]|?]; simpl; try discriminate.
    run_request this; try discriminate.
    intros H. injection H as <- <- <-. split; [reflexivity|].
    eexists _, _. split; [simpl; rewrite <- !app_assoc; reflexivity|reflexivity].
  - destruct (resolveParameter this "verifyPhone" i None) as [v|?]; simpl;
      [|discriminate].
    destruct (isE164 v) as [[|]|?]; simpl; try discriminate.
    run_request this; try discriminate.
    intros H. injection H as <- <- <-. split; [reflexivity|].
    eexists _, _. split; [simpl; rewrite <- !app_assoc; reflexivity|reflexivity].
Qed.

Lemma getBalance_block_ok {W} (this : IExecuteFunctions W) (i : nat)
    (s s' : State W) (out : IDataObject) (res : JVal) :
  getBalance_block this i s = (Ok (out, res), s') ->
  exists balance,
    balance_of res = Ok balance /\ out = [("balance", balance)] /\
    answered s s' res.
Proof.
  unfold_node. run_request this; try discriminate.
  destruct (balance_of v) as [balance|?] eqn:Hb; simpl; [|discriminate].
  intros H. injection H as <- <- <-. exists balance.
  repeat split; [exact Hb|]. eexists _, _. split; reflexivity.
Qed.

(** [out.raw = res] on a record that has no [raw] yet appends it. *)
Lemma attach_raw_normalized (includeRaw res : JVal) (base : IDataObject) :
  lookup_prop "raw" base = None ->
  attach_raw includeRaw base res = normalized base includeRaw res.
Proof.
  intros Hn. unfold attach_raw, normalized.
  destruct (truthy includeRaw && truthy res); [|reflexivity].
  induction base as [|[k v] base IH]; simpl in *; [reflexivity|].
  destruct (String.eqb k "raw"); [discriminate|]. now rewrite IH.
Qed.

(** [v?.k] and [v.k] agree wherever [v.k] does not throw, and a value
    without properties yields undefined. *)
Lemma opt_member_member (v : JVal) (k : string) : opt_member v k = member v k.
Proof. destruct v; reflexivity. Qed.

Lemma get_member_present (v : JVal) (k : string) :
  is_nullish v = false -> get_member v k = Ok (member v k).
Proof. destruct v; simpl; intros H; try discriminate; reflexivity. Qed.

(** The chain of [??] and [?.] on a response that is not null or undefined. *)
Lemma balance_of_chain (res : JVal) :
  is_nullish res = false -> balance_of res = Ok (balance_chain res).
Proof.
  intros Hn. unfold balance_of, balance_chain.
  rewrite (@get_member_present res "data" Hn), !opt_member_member.
  reflexivity.
Qed.

(** A response that is null or undefined has no [data] to read. *)
Lemma balance_of_nullish (res : JVal) :
  is_nullish res = true -> exists m, balance_of res = Throw (TypeError m).
Proof.
  destruct res; simpl; intros H; try discriminate; eexists; reflexivity.
Qed.

(** C6. An item whose [try] body completes yields a record without item
    pairing whose keys are those of its operation: [success: true] for
    [send], [verified: true] for [verify], [balance] with the value
    extracted from the response for [getBalance]; the response [res] of the
    item's request is added under [raw] exactly when [includeRaw] and [res]
    are both truthy.  For a boolean [includeRaw] and a response that is an
    object, that is exactly when [includeRaw] is true.  An item for which no
    block is selected makes no request and yields the empty record. *)
Theorem C6_normalized_output {W} (this : IExecuteFunctions W)
    (resource operation includeRaw : JVal) (i : nat) (s s' : State W)
    (r : INodeExecutionData) :
  item_body this resource operation includeRaw i s = (Ok r, s') ->
  pairedItem r = None /\
  match branch_of resource operation with
  | SendOtp =>
      exists res, answered s s' res /\
        json r = normalized [("success", JBool true)] includeRaw res
  | VerifyOtp =>
      exists res, answered s s' res /\
        json r = normalized [("verified", JBool true)] includeRaw res
  | GetBalance =>
      exists res balance, answered s s' res /\
        balance_of res = Ok balance /\
        json r = normalized [("balance", balance)] includeRaw res
  | NoBranch => json r = [] /\ s' = s
  end /\
  (forall base b o,
     normalized base (JBool b) (JObj o)
     = if b then base ++ [("raw", JObj o)] else base).
Proof.
  intros H. rewrite item_body_branch in H.
  assert (Hn : forall base b o,
             normalized base (JBool b) (JObj o)
             = if b then base ++ [("raw", JObj o)] else base).
  { intros base b o. unfold normalized. simpl. now rewrite andb_true_r. }
  destruct (branch_of resource operation).
  - destruct (send_block this i s) as [[[out res]|e] s1] eqn:Hb;
      simpl in H; [|discriminate].
    injection H as <- <-. apply send_block_ok in Hb as [-> Ha].
    split; [reflexivity|]. split; [|exact Hn].
    exists res. split; [exact Ha|]. simpl.
    now apply attach_raw_normalized.
  - destruct (verify_block this i s) as [[[out res]|e] s1] eqn:Hb;
      simpl in H; [|discriminate].
    injection H as <- <-. apply verify_block_ok in Hb as [-> Ha].
    split; [reflexivity|]. split; [|exact Hn].
    exists res. split; [exact Ha|]. simpl.
    now apply attach_raw_normalized.
  - destruct (getBalance_block this i s) as [[[out res]|e] s1] eqn:Hb;
      simpl in H; [|discriminate].
    injection H as <- <-.
    apply getBalance_block_ok in Hb as (balance & Hbal & -> & Ha).
    split; [reflexivity|]. split; [|exact Hn].
    exists res, balance. split; [exact Ha|]. split; [exact Hbal|]. simpl.
    now apply attach_raw_normalized.
  - injection H as <- <-. split; [reflexivity|]. split; [|exact Hn].
    split; reflexivity.
Qed.

(** Sending to a well-formed number with [includeRaw] on. *)
Lemma C6_witness :
  exists res,
    json (mkItem [("success", JBool true);
                  ("raw", JObj [("data", JObj [("balance", JNum 100)])])] None)
    = normalized [("success", JBool true)] (JBool true) res.
Proof.
  destruct (@C6_normalized_output _
              (Demo.host 2 (Demo.with_raw Demo.send_sms) true Demo.serving)
              (JStr "otp") (JStr "send") (JBool true) 0 Demo.start _ _ eq_refl)
    as (_ & (res & _ & Hj) & _).
  exists res. exact Hj.
Defined.

(** ** The balance *)

(** C9. For [getBalance], with the credential resolved and a response that
    is neither null nor undefined, the item completes and its record holds
    under [balance] the value of the fallback chain: [data] is the
    response's [data] property unless that is null or undefined, and the
    response itself otherwise; the balance is [data.balance] unless that is
    null or undefined, and [data.data.balance] otherwise.  When neither is
    there the record is [{ balance: undefined }], not an error. *)
Theorem C9_balance_fallback {W} (this : IExecuteFunctions W)
    (includeRaw : JVal) (i : nat) (s : State W)
    (creds : option ICredentialDataDecryptedObject) (res : JVal) (w : W) :
  credentialStore this "authenticaApi" = Ok creds ->
  transport this "authenticaApi" (balance_request creds) (world s) = (Ok res, w) ->
  is_nullish res = false ->
  (exists s',
     item_body this (JStr "account") (JStr "getBalance") includeRaw i s
     = (Ok (mkItem (normalized [("balance", balance_chain res)] includeRaw res)
              None), s')) /\
  (let data :=
     if is_nullish (member res "data") then res else member res "data" in
   is_nullish (member data "balance") = true ->
   member (member data "data") "balance" = JUndefined ->
   balance_chain res = JUndefined).
Proof.
  intros Hc Ht Hn. split.
  - rewrite item_body_branch. simpl branch_of. unfold_node.
    rewrite doRequest_run, Hc. simpl. unfold balance_request in Ht.
    rewrite Ht. simpl. rewrite (balance_of_chain res Hn). simpl.
    eexists. rewrite attach_raw_normalized by reflexivity. reflexivity.
  - intros data Hb Hd. unfold balance_chain. fold data. now rewrite Hb.
Qed.

(** A response that wraps the balance in [data], one that carries it at the
    top, and one that has none. *)
Lemma C9_witness :
  (exists s',
     item_body (Demo.host 1 Demo.balance true
                  (Demo.answering (JObj [("data", JObj [("balance", JNum 42)])])))
       (JStr "account") (JStr "getBalance") (JBool false) 0 Demo.start
     = (Ok (mkItem [("balance", JNum 42)] None), s')) /\
  (exists s',
     item_body (Demo.host 1 Demo.balance true
                  (Demo.answering (JObj [("balance", JNum 7)])))
       (JStr "account") (JStr "getBalance") (JBool false) 0 Demo.start
     = (Ok (mkItem [("balance", JNum 7)] None), s')) /\
  (exists s',
     item_body (Demo.host 1 Demo.balance true
                  (Demo.answering (JObj [("status", JStr "ok")])))
       (JStr "account") (JStr "getBalance") (JBool false) 0 Demo.start
     = (Ok (mkItem [("balance", JUndefined)] None), s')).
Proof.
  split; [|split].
  - exact (proj1 (@C9_balance_fallback _
             (Demo.host 1 Demo.balance true
                (Demo.answering (JObj [("data", JObj [("balance", JNum 42)])])))
             (JBool false) 0 Demo.start _ _ _ eq_refl eq_refl eq_refl)).
  - exact (proj1 (@C9_balance_fallback _
             (Demo.host 1 Demo.balance true
                (Demo.answering (JObj [("balance", JNum 7)])))
             (JBool false) 0 Demo.start _ _ _ eq_refl eq_refl eq_refl)).
  - exact (proj1 (@C9_balance_fallback _
             (Demo.host 1 Demo.balance true
                (Demo.answering (JObj [("status", JStr "ok")])))
             (JBool false) 0 Demo.start _ _ _ eq_refl eq_refl eq_refl)).
Defined.

(** ** The calls of a turn and of a run *)

(** The per-item parameters and the run-level ones are different names. *)
Lemma item_parameters_not_run_level (name : string) :
  mem_string name item_parameters = true ->
  mem_string name run_parameters = false.
Proof.
  unfold mem_string, item_parameters. simpl. rewrite !orb_false_r.
  rewrite !orb_true_iff, !String.eqb_eq.
  intros [H|[H|[H|[H|[H|[H|H]]]]]]; subst; reflexivity.
Qed.

(** Split on the next host call or test the goal is stuck on. *)
Ltac host_case this :=
  match goal with
  | |- context [doRequest this ?m ?p ?b ?i ?s] => run_request this
  | |- context [resolveParameter this ?n ?i ?f] =>
      destruct (resolveParameter this n i f); simpl
  | |- context [strict_eq_str ?v ?l] => destruct (strict_eq_str v l); simpl
  | |- context [isEmail ?v] => destruct (isEmail v) as [[|]|?]; simpl
  | |- context [isE164 ?v] => destruct (isE164 v) as [[|]|?]; simpl
  | |- context [balance_of ?v] => destruct (balance_of v); simpl
  | |- context [continueOnFailSetting this] =>
      destruct (continueOnFailSetting this); simpl
  end.

(** Name the calls made and check them. *)
Ltac segment_done :=
  first
    [ exists []; split; [now rewrite app_nil_r|]
    | eexists; split; [simpl; rewrite <- ?app_assoc; simpl; reflexivity|] ];
  unfold item_calls; simpl; rewrite ?Nat.eqb_refl; simpl;
  repeat split; solve [reflexivity | lia].

Lemma item_step_calls {W} (this : IExecuteFunctions W)
    (resource operation includeRaw : JVal) (i : nat) (s : State W) :
  exists t,
    calls (snd (item_step this resource operation includeRaw i s))
    = calls s ++ t /\ item_calls i t.
Proof.
  unfold item_step. rewrite item_body_branch.
  destruct (branch_of resource operation); unfold_node;
    repeat host_case this; segment_done.
Qed.

Section Segments.
Context {W : Type} (this : IExecuteFunctions W).
Variables resource operation includeRaw : JVal.
Variable P : nat -> list Event -> Prop.
Hypothesis turn_calls :
  forall i s, exists t,
    calls (snd (item_step this resource operation includeRaw i s))
    = calls s ++ t /\ P i t.

(** The calls of the loop are the calls of its turns, one segment per item
    entered; all the items are entered when the loop ends with its records. *)
Lemma for_items_calls :
  forall n i acc s,
    exists segs,
      calls (snd (for_items this resource operation includeRaw n i acc s))
      = calls s ++ concat segs /\
      length segs <= n /\
      (forall k seg, nth_error segs k = Some seg -> P (i + k) seg) /\
      (forall out,
         fst (for_items this resource operation includeRaw n i acc s) = Ok out ->
         length segs = n).
Proof.
  induction n as [|n IH]; intros i acc s; simpl.
  - exists []. simpl. rewrite app_nil_r. repeat split; auto.
    intros k seg Hk. destruct k; discriminate.
  - destruct (turn_calls i s) as (t & Ht & HP).
    destruct (item_step this resource operation includeRaw i s)
      as [[r|e] s1]; simpl in Ht.
    + destruct (IH (S i) (acc ++ [r]) s1) as (segs & Hs & Hlen & Hall & Hok).
      exists (t :: segs). simpl. rewrite Hs, Ht, <- app_assoc.
      repeat split; [lia | |].
      * intros [|k] seg Hk; simpl in Hk.
        -- injection Hk as <-. now rewrite Nat.add_0_r.
        -- replace (i + S k) with (S i + k) by lia. now apply Hall.
      * intros out Ho. f_equal. now apply (Hok out).
    + exists [t]. simpl. rewrite Ht, app_nil_r.
      repeat split; [lia | | discriminate].
      intros [|[|k]] seg Hk; simpl in Hk; try discriminate.
      injection Hk as <-. now rewrite Nat.add_0_r.
Qed.

End Segments.

Lemma http_calls_concat_bound (segs : list (list Event)) :
  (forall k seg, nth_error segs k = Some seg -> length (http_calls seg) <= 1) ->
  length (http_calls (concat segs)) <= length segs.
Proof.
  induction segs as [|seg segs IH]; intros H; simpl; [lia|].
  rewrite http_calls_app, length_app.
  pose proof (H 0 seg eq_refl).
  assert (length (http_calls (concat segs)) <= length segs).
  { apply IH. intros k sg Hk. exact (H (S k) sg Hk). }
  lia.
Qed.

Lemma http_calls_concat_balance
    (creds : option ICredentialDataDecryptedObject)
    (segs : list (list Event)) :
  (forall k seg, nth_error segs k = Some seg ->
     exists r, http_calls seg
               = [CallHttpRequest "authenticaApi" (balance_request creds) r]) ->
  exists responses,
    length responses = length segs /\
    http_calls (concat segs) = balance_calls creds responses.
Proof.
  induction segs as [|seg segs IH]; intros H; simpl.
  - exists []. split; reflexivity.
  - destruct (H 0 seg eq_refl) as [r Hr].
    destruct IH as (rs & Hlen & Hrs).
    { intros k sg Hk. exact (H (S k) sg Hk). }
    exists (r :: rs). simpl. split; [lia|].
    now rewrite http_calls_app, Hr, Hrs.
Qed.

(** The calls of a run: the reads that open it, as far as they went, then
    the calls of the turns. *)
Lemma execute_calls {W} (this : IExecuteFunctions W)
    (P : nat -> list Event -> Prop) :
  (forall resource operation includeRaw i s, exists t,
     calls (snd (item_step this resource operation includeRaw i s))
     = calls s ++ t /\ P i t) ->
  forall s,
    exists hdr segs,
      calls (snd (execute this s)) = calls s ++ hdr ++ concat segs /\
      (exists rest, run_header = hdr ++ rest) /\
      length segs <= length (inputData this) /\
      (forall i seg, nth_error segs i = Some seg -> P i seg) /\
      (forall out, fst (execute this s) = Ok out ->
         hdr = run_header /\ length segs = length (inputData this)).
Proof.
  intros Hturn s. unfold execute, getNodeParameter.
  assert (Hnone : forall i seg, nth_error (@nil (list Event)) i = Some seg ->
                                P i seg).
  { intros [|i] seg Hk; discriminate. }
  destruct (resolveParameter this "resource" 0 None) as [resource|m]; simpl.
  2:{ exists [CallGetNodeParameter "resource" 0 None], []. simpl.
      split; [reflexivity|]. split; [eexists; reflexivity|].
      split; [lia|]. split; [exact Hnone | discriminate]. }
  destruct (resolveParameter this "operation" 0 None) as [operation|m]; simpl.
  2:{ exists [CallGetNodeParameter "resource" 0 None;
              CallGetNodeParameter "operation" 0 None], []. simpl.
      rewrite <- app_assoc.
      split; [reflexivity|]. split; [eexists; reflexivity|].
      split; [lia|]. split; [exact Hnone | discriminate]. }
  destruct (resolveParameter this "includeRaw" 0 (Some (JBool false)))
    as [includeRaw|m]; simpl.
  2:{ exists run_header, []. simpl. rewrite <- !app_assoc.
      split; [reflexivity|]. split; [exists []; reflexivity|].
      split; [lia|]. split; [exact Hnone | discriminate]. }
  destruct (for_items_calls this resource operation includeRaw P
              (Hturn resource operation includeRaw)
              (length (inputData this)) 0 []
              (record (CallGetNodeParameter "includeRaw" 0 (Some (JBool false)))
                 (record (CallGetNodeParameter "operation" 0 None)
                    (record (CallGetNodeParameter "resource" 0 None) s))))
    as (segs & Hs & Hlen & Hall & Hok).
  exists run_header, segs.
  destruct (for_items _ _ _ _ _ _ _ _) as [[rd|e] s4]; simpl in *;
    rewrite Hs, <- !app_assoc; simpl;
    (split; [reflexivity|]); (split; [exists []; reflexivity|]);
    (split; [exact Hlen|]); (split; [exact Hall|]).
  - intros out _. split; [reflexivity|]. now apply (Hok rd).
  - discriminate.
Qed.

Lemma forallb_concat (f : Event -> bool) (segs : list (list Event)) :
  (forall i seg, nth_error segs i = Some seg -> forallb f seg = true) ->
  forallb f (concat segs) = true.
Proof.
  induction segs as [|seg segs IH]; intros H; simpl; [reflexivity|].
  rewrite forallb_app, (H 0 seg eq_refl). simpl.
  apply IH. intros i sg Hi. exact (H (S i) sg Hi).
Qed.

Lemma execute_ok_turns {W} (this : IExecuteFunctions W) (s s' : State W)
    (branches : list (list INodeExecutionData)) :
  execute this s = (Ok branches, s') ->
  exists rs resource operation includeRaw,
    branches = [rs] /\
    resolveParameter this "resource" 0 None = Ok resource /\
    resolveParameter this "operation" 0 None = Ok operation /\
    resolveParameter this "includeRaw" 0 (Some (JBool false)) = Ok includeRaw /\
    for_items this resource operation includeRaw (length (inputData this)) 0 []
      (after_header s) = (Ok rs, s').
Proof.
  intros H.
  destruct (resolveParameter this "resource" 0 None) as [resource|m] eqn:Hr;
    [|unfold execute, getNodeParameter in H; rewrite Hr in H; discriminate].
  destruct (resolveParameter this "operation" 0 None) as [operation|m] eqn:Ho;
    [|unfold execute, getNodeParameter in H; rewrite Hr, Ho in H; discriminate].
  destruct (resolveParameter this "includeRaw" 0 (Some (JBool false)))
    as [includeRaw|m] eqn:Hi;
    [|unfold execute, getNodeParameter in H; rewrite Hr, Ho, Hi in H;
      discriminate].
  rewrite (execute_run this s Hr Ho Hi) in H.
  destruct (for_items _ _ _ _ _ _ _ _) as [[rd|e] s4] eqn:Hloop;
    [|discriminate].
  injection H as <- <-. exists rd, resource, operation, includeRaw. auto.
Qed.

(** ** Where the parameters are read *)

(** C10. The calls of a run are the reads of [resource], [operation] and
    [includeRaw] at index 0, once each and in this order (as far as they
    resolve), followed by one segment of calls per item entered; in the
    segment of item [i] no run-level parameter is read and every parameter
    read is one of [otpMethod], [phone], [email], [verifyWith],
    [verifyPhone], [verifyEmail], [otp], read at index [i].  The records of
    a run that returns are the turns of the loop taken, for every item, with
    the three values read at index 0. *)
Theorem C10_parameter_indices {W} (this : IExecuteFunctions W) (s : State W) :
  (exists hdr segs,
     calls (snd (execute this s)) = calls s ++ hdr ++ concat segs /\
     (exists rest, run_header = hdr ++ rest) /\
     length segs <= length (inputData this) /\
     (forall i seg, nth_error segs i = Some seg ->
        forallb (call_of_item i) seg = true) /\
     (forall out, fst (execute this s) = Ok out ->
        hdr = run_header /\ length segs = length (inputData this))) /\
  (forall rs s',
     execute this s = (Ok [rs], s') ->
     exists resource operation includeRaw,
       resolveParameter this "resource" 0 None = Ok resource /\
       resolveParameter this "operation" 0 None = Ok operation /\
       resolveParameter this "includeRaw" 0 (Some (JBool false))
         = Ok includeRaw /\
       turns this resource operation includeRaw 0 (after_header s) rs s').
Proof.
  split.
  - apply (execute_calls this (fun i t => forallb (call_of_item i) t = true)).
    intros resource operation includeRaw i si.
    destruct (item_step_calls this resource operation includeRaw i si)
      as (t & Ht & Hp & _).
    exists t. auto.
  - intros rs s' H.
    apply execute_ok_turns in H
      as (rs' & resource & operation & includeRaw & E & Hr & Ho & Hi & Hl).
    injection E as ->. apply for_items_ok in Hl as (rs & E & _ & Ht).
    simpl in E. subst rs'. exists resource, operation, includeRaw. auto.
Qed.

(** One item verified by e-mail: the record is the turn taken with the
    values read at index 0. *)
Lemma C10_witness :
  exists rs s',
    execute (Demo.host 1 Demo.verify_email true Demo.serving) Demo.start
    = (Ok [rs], s') /\
    turns (Demo.host 1 Demo.verify_email true Demo.serving)
      (JStr "otp") (JStr "verify") (JBool false) 0
      (after_header Demo.start) rs s'.
Proof.
  destruct (proj2 (C10_parameter_indices
                     (Demo.host 1 Demo.verify_email true Demo.serving)
                     Demo.start) _ _ eq_refl)
    as (resource & operation & includeRaw & Hr & Ho & Hi & Ht).
  injection Hr as <-. injection Ho as <-. injection Hi as <-.
  eexists _, _. split; [reflexivity | exact Ht].
Defined.

(** ** Authentication *)

(** C5. Every request of a run is made through the host's authenticating
    transport under the credential name [authenticaApi], the name of the
    credential declaration, and asks for JSON; so is the request of
    [doRequest] for any method, path and body.  The [authenticate] block of
    the declaration is generic and contributes, for a host that resolves
    [={{$credentials.apiKey}}] to the stored API key and leaves a literal
    as it is, the headers [X-Authorization] with the stored key and [Accept]
    with [application/json]. *)
Theorem C5_authenticated_requests {W} (this : IExecuteFunctions W)
    (s : State W) :
  (exists t,
     calls (snd (execute this s)) = calls s ++ t /\
     forall c o r, In (CallHttpRequest c o r) t ->
       c = AuthenticaApi.name /\ In ("Accept", "application/json") (headers o)) /\
  (forall m path b i,
     exists t,
       calls (snd (doRequest this m path b i s)) = calls s ++ t /\
       forall c o r, In (CallHttpRequest c o r) t ->
         c = AuthenticaApi.name /\ method o = m /\
         In ("Accept", "application/json") (headers o)) /\
  AuthenticaApi.name = "authenticaApi" /\
  auth_type AuthenticaApi.authenticate = "generic" /\
  (forall resolve c key,
     credential_prop "apiKey" c = Some key ->
     resolve "={{$credentials.apiKey}}" c = key ->
     resolve "application/json" c = "application/json" ->
     injected_headers resolve AuthenticaApi.authenticate c
     = [("X-Authorization", key); ("Accept", "application/json")]).
Proof.
  split; [|split; [|split; [|split]]].
  - destruct (execute_calls this (fun _ t => forallb via_credential t = true))
      with (s := s) as (hdr & segs & Hc & [rest Hh] & _ & Hall & _).
    { intros resource operation includeRaw i si.
      destruct (item_step_calls this resource operation includeRaw i si)
        as (t & Ht & _ & _ & Hv).
      exists t. auto. }
    exists (hdr ++ concat segs). split; [exact Hc|].
    assert (Hv : forallb via_credential (hdr ++ concat segs) = true).
    { rewrite forallb_app, (forallb_concat _ _ Hall), andb_true_r.
      assert (Hr : forallb via_credential run_header = true) by reflexivity.
      rewrite Hh, forallb_app in Hr. now apply andb_true_iff in Hr. }
    intros c o r Hin. rewrite forallb_forall in Hv. apply Hv in Hin.
    simpl in Hin. apply andb_true_iff in Hin as [Hn Ha].
    apply String.eqb_eq in Hn. split; [exact Hn|].
    apply existsb_exists in Ha as ([k v] & Hin & Hkv). simpl in Hkv.
    apply andb_true_iff in Hkv as [Hk Hv']. apply String.eqb_eq in Hk, Hv'.
    now subst.
  - intros m path b i. rewrite doRequest_run.
    destruct (credentialStore this "authenticaApi") as [creds|msg]; simpl.
    + destruct (transport _ _ _ _) as [r w]. simpl. eexists.
      split; [reflexivity|]. intros c o r' [Hin|[Hin|[]]]; [discriminate|].
      injection Hin as <- <- <-.
      repeat split.
      * unfold request_options. destruct b; [|reflexivity].
        destruct (negb _); reflexivity.
      * unfold request_options. destruct b; [|simpl; auto].
        destruct (negb _); simpl; auto.
    + eexists. split; [reflexivity|]. intros c o r [Hin|[]]. discriminate.
  - reflexivity.
  - reflexivity.
  - intros resolve c key _ Hk Hl. unfold injected_headers. simpl.
    now rewrite Hk, Hl.
Qed.

(** The headers added for the stored credential of the examples. *)
Lemma C5_witness :
  injected_headers Demo.resolve_expression AuthenticaApi.authenticate Demo.stored
  = [("X-Authorization", "secret-key"); ("Accept", "application/json")].
Proof.
  destruct (C5_authenticated_requests
              (Demo.host 1 Demo.balance true Demo.serving) Demo.start)
    as (_ & _ & _ & _ & H).
  apply H; reflexivity.
Defined.

(** ** The number of requests *)

Lemma balance_turn_calls {W} (this : IExecuteFunctions W)
    (includeRaw : JVal) (creds : option ICredentialDataDecryptedObject) :
  credentialStore this "authenticaApi" = Ok creds ->
  forall i s, exists t,
    calls (snd (item_step this (JStr "account") (JStr "getBalance")
                  includeRaw i s)) = calls s ++ t /\
    exists r, http_calls t
              = [CallHttpRequest "authenticaApi" (balance_request creds) r].
Proof.
  intros Hc i s. unfold item_step. rewrite item_body_branch. simpl branch_of.
  unfold_node. rewrite doRequest_run, Hc. simpl. unfold balance_request.
  destruct (transport _ _ _ _) as [[v|msg] w]; simpl.
  - destruct (balance_of v); simpl;
      [|destruct (continueOnFailSetting this); simpl];
      (eexists; split;
       [simpl; rewrite <- ?app_assoc; simpl; reflexivity
       | eexists; reflexivity]).
  - destruct (continueOnFailSetting this); simpl;
      (eexists; split;
       [simpl; rewrite <- ?app_assoc; simpl; reflexivity
       | eexists; reflexivity]).
Qed.

(** C7, as the code has it.  A turn of the loop makes at most one request,
    whatever its outcome, and a run makes at most as many requests as it
    has input items.  In account/getBalance mode, a run that returns its
    records, the credential being resolved, has made exactly one request
    per input item, each the GET of the balance, each answered on its
    own. *)
Theorem C7_requests_per_item {W} (this : IExecuteFunctions W) (s : State W) :
  (forall resource operation includeRaw i si,
     exists t,
       calls (snd (item_step this resource operation includeRaw i si))
       = calls si ++ t /\ length (http_calls t) <= 1) /\
  (exists t,
     calls (snd (execute this s)) = calls s ++ t /\
     length (http_calls t) <= length (inputData this)) /\
  (forall creds branches s',
     credentialStore this "authenticaApi" = Ok creds ->
     resolveParameter this "resource" 0 None = Ok (JStr "account") ->
     resolveParameter this "operation" 0 None = Ok (JStr "getBalance") ->
     execute this s = (Ok branches, s') ->
     exists responses,
       length responses = length (inputData this) /\
       http_calls (calls s')
       = http_calls (calls s) ++ balance_calls creds responses).
Proof.
  split; [|split].
  - intros resource operation includeRaw i si.
    destruct (item_step_calls this resource operation includeRaw i si)
      as (t & Ht & _ & Hn & _).
    exists t. auto.
  - destruct (execute_calls this (fun _ t => length (http_calls t) <= 1))
      with (s := s) as (hdr & segs & Hc & [rest Hh] & Hlen & Hall & _).
    { intros resource operation includeRaw i si.
      destruct (item_step_calls this resource operation includeRaw i si)
        as (t & Ht & _ & Hn & _).
      exists t. auto. }
    exists (hdr ++ concat segs). split; [exact Hc|].
    rewrite http_calls_app, length_app.
    assert (Hz : http_calls hdr = []).
    { assert (Hr : http_calls run_header = []) by reflexivity.
      rewrite Hh, http_calls_app in Hr. now apply app_eq_nil in Hr. }
    rewrite Hz. simpl.
    pose proof (@http_calls_concat_bound segs Hall). lia.
  - intros creds branches s' Hc Hr Ho H.
    apply execute_ok_turns in H
      as (rs & resource & operation & includeRaw & _ & Hr' & Ho' & _ & Hl).
    rewrite Hr in Hr'. rewrite Ho in Ho'.
    injection Hr' as <-. injection Ho' as <-.
    destruct (for_items_calls this (JStr "account") (JStr "getBalance")
                includeRaw _ (balance_turn_calls this includeRaw Hc)
                (length (inputData this)) 0 [] (after_header s))
      as (segs & Hs & _ & Hall & Hok).
    rewrite Hl in Hs, Hok. simpl in Hs, Hok.
    destruct (@http_calls_concat_balance creds segs Hall) as (responses & Hn & Hb).
    exists responses. split; [rewrite Hn; now apply (Hok rs)|].
    rewrite Hs. unfold after_header, record. simpl calls.
    rewrite !http_calls_app. simpl. rewrite !app_nil_r. now rewrite Hb.
Qed.

(** Three items in account/getBalance mode on a remote that answers: three
    requests. *)
Lemma C7_witness :
  exists responses,
    length responses = 3 /\
    http_calls (calls (snd (execute (Demo.host 3 Demo.balance true Demo.serving)
                              Demo.start)))
    = balance_calls (Some Demo.stored) responses.
Proof.
  destruct (C7_requests_per_item (Demo.host 3 Demo.balance true Demo.serving)
              Demo.start) as (_ & _ & H).
  destruct (H (Some Demo.stored) _ _ eq_refl eq_refl eq_refl eq_refl)
    as (responses & Hn & Hc).
  exists responses. split; [exact Hn | exact Hc].
Defined.

(** Two items in account/getBalance mode on a remote that refuses, with
    continue-on-fail off: the run aborts at the first item and has made one
    request, not two. *)
Lemma C7_counterexample : ~ one_request_per_input_item.
Proof.
  intros H.
  specialize (H (Demo.host 2 Demo.balance false Demo.refusing) Demo.start
                eq_refl eq_refl).
  vm_compute in H. discriminate.
Qed.

(** * Further properties of the code *)

(** ** The validators *)

Lemma trimStart_nil_all_space (l : list ascii) :
  trimStart l = [] -> all_space l.
Proof.
  intros H. destruct (trimStart_split l) as (a & E & Ha).
  rewrite H, app_nil_r in E. now subst.
Qed.

Lemma all_space_app (a b : list ascii) :
  all_space a -> all_space b -> all_space (a ++ b).
Proof.
  unfold all_space. intros Ha Hb. now rewrite forallb_app, Ha, Hb.
Qed.

Lemma trimStart_app (l r : list ascii) :
  trimStart l <> [] -> trimStart (l ++ r) = trimStart l ++ r.
Proof.
  induction l as [|c l IH]; simpl; [congruence|].
  destruct (is_space c); auto.
Qed.

Lemma trimEnd_skip (l r : list ascii) :
  all_space r -> trimEnd (l ++ r) = trimEnd l.
Proof.
  intros Hr. unfold trimEnd. rewrite rev_app_distr, trimStart_skip; auto.
  unfold all_space. now rewrite forallb_rev.
Qed.

(** White space around a text does not change what [trim] makes of it. *)
Lemma trim_padding (l s r : list ascii) :
  all_space l -> all_space r ->
  trimEnd (trimStart (l ++ s ++ r)) = trimEnd (trimStart s).
Proof.
  intros Hl Hr. rewrite trimStart_skip by assumption.
  destruct (trimStart s) as [|c t] eqn:Es.
  - apply trimStart_nil_all_space in Es.
    now rewrite (trimStart_all_space (all_space_app Es Hr)).
  - rewrite trimStart_app by congruence. rewrite Es. now apply trimEnd_skip.
Qed.

Lemma trimStart_idempotent (l : list ascii) :
  trimStart (trimStart l) = trimStart l.
Proof.
  induction l as [|c l IH]; simpl; [reflexivity|].
  destruct (is_space c) eqn:Hc; [exact IH|]. simpl. now rewrite Hc.
Qed.

Lemma trimStart_length (l : list ascii) : length (trimStart l) <= length l.
Proof.
  destruct (trimStart_split l) as (a & E & _).
  apply (f_equal (@length ascii)) in E. rewrite length_app in E. lia.
Qed.

Lemma trimStart_fixed_head (c : ascii) (t : list ascii) :
  trimStart (c :: t) = c :: t -> is_space c = false.
Proof.
  simpl. destruct (is_space c); [|reflexivity]. intros H.
  pose proof (trimStart_length t) as Hl. rewrite H in Hl. simpl in Hl. lia.
Qed.

Lemma trimEnd_idempotent (l : list ascii) : trimEnd (trimEnd l) = trimEnd l.
Proof.
  unfold trimEnd. now rewrite rev_involutive, trimStart_idempotent.
Qed.

(** Trimming the end of a text that does not start with white space leaves
    a text that does not start with white space. *)
Lemma trimStart_trimEnd_fixed (x : list ascii) :
  trimStart x = x -> trimStart (trimEnd x) = trimEnd x.
Proof.
  intros Hx. destruct (trimEnd_split x) as (b & E & _).
  destruct (trimEnd x) as [|c y]; [reflexivity|].
  rewrite E in Hx. simpl app in Hx. apply trimStart_fixed_head in Hx.
  simpl. now rewrite Hx.
Qed.

(** What [trim] returns neither starts nor ends with white space, so
    trimming it again changes nothing. *)
Lemma trim_idempotent (s : string) : trim (trim s) = trim s.
Proof.
  unfold trim. rewrite list_ascii_of_string_of_list_ascii. f_equal.
  rewrite (trimStart_trimEnd_fixed (trimStart_idempotent _)).
  apply trimEnd_idempotent.
Qed.

(** X1. The verdict of a validator depends on the trimmed text only: white
    space added before and after a string changes neither verdict, and the
    trimmed string gets the verdict of the string. *)
Theorem X1_verdict_of_trimmed_text (l r : list ascii) (s : string) :
  all_space l -> all_space r ->
  isE164 (JStr (string_of_list_ascii (l ++ list_ascii_of_string s ++ r)))
    = isE164 (JStr s) /\
  isEmail (JStr (string_of_list_ascii (l ++ list_ascii_of_string s ++ r)))
    = isEmail (JStr s) /\
  isE164 (JStr (trim s)) = isE164 (JStr s) /\
  isEmail (JStr (trim s)) = isEmail (JStr s).
Proof.
  intros Hl Hr.
  assert (Hp : trim (string_of_list_ascii (l ++ list_ascii_of_string s ++ r))
               = trim s).
  { unfold trim. rewrite list_ascii_of_string_of_list_ascii.
    now rewrite trim_padding. }
  unfold isE164, isEmail, coalesce_trim, nullish_coalesce. simpl.
  rewrite Hp, trim_idempotent. repeat split.
Qed.

(** A number that fails stays failed under padding, one that passes stays
    passed. *)
Lemma X1_witness :
  isE164 (JStr "	0512345678  ") = isE164 (JStr "0512345678") /\
  isEmail (JStr "  a@b.co ") = isEmail (JStr "a@b.co").
Proof.
  split.
  - exact (proj1 (@X1_verdict_of_trimmed_text
             (list_ascii_of_string "	") (list_ascii_of_string "  ")
             "0512345678" eq_refl eq_refl)).
  - exact (proj1 (proj2 (@X1_verdict_of_trimmed_text
             (list_ascii_of_string "  ") (list_ascii_of_string " ")
             "a@b.co" eq_refl eq_refl))).
Defined.

(** X2. The validators return a verdict on a string, on null and on
    undefined, and on nothing else: given a number, a boolean, an array or
    an object they throw, and what they throw is a [TypeError]. *)
Theorem X2_validators_null_safety (v : JVal) :
  ((exists b, isE164 v = Ok b) <->
   v = JUndefined \/ v = JNull \/ exists s, v = JStr s) /\
  ((exists b, isEmail v = Ok b) <->
   v = JUndefined \/ v = JNull \/ exists s, v = JStr s) /\
  (forall e, isE164 v = Throw e \/ isEmail v = Throw e ->
             exists m, e = TypeError m) /\
  ((exists e, isE164 v = Throw e) <-> (exists e, isEmail v = Throw e)).
Proof.
  unfold isE164, isEmail, coalesce_trim, nullish_coalesce.
  destruct v; simpl; repeat split;
    try (intros [? H]; discriminate);
    try (intros [H|[H|[? H]]]; discriminate);
    try (intros _; eauto; fail);
    try (intros; eexists; reflexivity);
    try (intros e [H|H]; try discriminate; injection H as <-; eauto).
Qed.

Lemma count_at_none (p : ascii -> bool) (l : list ascii) :
  (forall c, p c = true -> c <> "@"%char) ->
  forallb p l = true -> count_occ ascii_dec l "@"%char = 0.
Proof.
  intros Hp. induction l as [|c l IH]; simpl; [reflexivity|].
  intros H. apply andb_true_iff in H as [Hc Hl].
  destruct (ascii_dec c "@"); [exfalso; now apply (Hp c)|auto].
Qed.

Lemma digit_not_at (c : ascii) : is_digit c = true -> c <> "@"%char.
Proof. intros H ->. discriminate. Qed.

Lemma not_space_at_not_at (c : ascii) : not_space_at c = true -> c <> "@"%char.
Proof.
  intros H ->. vm_compute in H. discriminate.
Qed.

Lemma E164_form_no_at (t : list ascii) :
  E164_form t -> count_occ ascii_dec t "@"%char = 0.
Proof.
  intros (d & ds & -> & Hd & Hds & _). simpl.
  destruct (ascii_dec d "@") as [->|_]; [discriminate|].
  exact (count_at_none _ _ digit_not_at Hds).
Qed.

Lemma email_form_one_at (t : list ascii) :
  email_form t -> count_occ ascii_dec t "@"%char = 1.
Proof.
  intros (a & b & c & -> & _ & _ & _ & Ha & Hb & Hc).
  rewrite count_occ_app. simpl. rewrite count_occ_app. simpl.
  rewrite (count_at_none _ _ not_space_at_not_at Ha).
  rewrite (count_at_none _ _ not_space_at_not_at Hb).
  rewrite (count_at_none _ _ not_space_at_not_at Hc). reflexivity.
Qed.

Lemma email_form_length (t : list ascii) : email_form t -> 5 <= length t.
Proof.
  intros (a & b & c & -> & Ha & Hb & Hc & _).
  rewrite length_app. simpl. rewrite length_app. simpl.
  destruct a; [congruence|]. destruct b; [congruence|].
  destruct c; [congruence|]. simpl. lia.
Qed.

(** X3. What passes [isE164] is a string whose trimmed text has 8 to 16
    characters and no [@], and it fails [isEmail]; what passes [isEmail] is
    a string whose trimmed text has at least 5 characters and exactly one
    [@], and it fails [isE164].  No value passes both. *)
Theorem X3_accepted_identifiers (v : JVal) :
  (isE164 v = Ok true ->
   exists s, v = JStr s /\
     8 <= length (list_ascii_of_string (trim s)) <= 16 /\
     count_occ ascii_dec (list_ascii_of_string (trim s)) "@"%char = 0 /\
     isEmail v = Ok false) /\
  (isEmail v = Ok true ->
   exists s, v = JStr s /\
     5 <= length (list_ascii_of_string (trim s)) /\
     count_occ ascii_dec (list_ascii_of_string (trim s)) "@"%char = 1 /\
     isE164 v = Ok false).
Proof.
  assert (HE : forall s, isE164 (JStr s)
                 = Ok (match_regex re_E164 (list_ascii_of_string (trim s))))
    by reflexivity.
  assert (HM : forall s, isEmail (JStr s)
                 = Ok (match_regex re_email (list_ascii_of_string (trim s))))
    by reflexivity.
  split; intros H;
    (destruct v as [| | | |s| |]; try discriminate H);
    exists s; (split; [reflexivity|]);
    rewrite HE, HM in *; injection H as H.
  - apply re_E164_spec in H.
    pose proof (E164_form_no_at H) as Hat.
    destruct (E164_form_digits H) as (ds & E & _ & Hlen).
    repeat split; [rewrite E; simpl; lia | rewrite E; simpl; lia | exact Hat |].
    destruct (match_regex re_email (list_ascii_of_string (trim s))) eqn:He;
      [|reflexivity].
    apply re_email_spec, email_form_one_at in He. congruence.
  - apply re_email_spec in H.
    pose proof (email_form_one_at H) as Hat.
    repeat split; [now apply email_form_length | exact Hat |].
    destruct (match_regex re_E164 (list_ascii_of_string (trim s))) eqn:He;
      [|reflexivity].
    apply re_E164_spec, E164_form_no_at in He. congruence.
Qed.

(** ** The calls of a run, one by one *)

Ltac known_endpoint :=
  first [ apply endpoint_balance
        | apply endpoint_send; auto
        | apply endpoint_verify; auto ].

Ltac known_calls :=
  repeat (apply Forall_cons;
          [ simpl; first [ reflexivity | exact I | now left
                         | split; [now left | known_endpoint] ] | ]);
  apply Forall_nil.

Ltac shape_done :=
  unfold turn_shape; repeat (simpl; rewrite ?Nat.eqb_refl); reflexivity.

Ltac turn_done :=
  first
    [ exists []; split; [now rewrite app_nil_r|]
    | eexists; split; [simpl; rewrite <- ?app_assoc; simpl; reflexivity|] ];
  split; [shape_done | known_calls].

Lemma item_step_known {W} (this : IExecuteFunctions W)
    (resource operation includeRaw : JVal) (i : nat) (s : State W) :
  exists t,
    calls (snd (item_step this resource operation includeRaw i s))
    = calls s ++ t /\
    turn_shape i t = true /\ Forall call_known t.
Proof.
  unfold item_step. rewrite item_body_branch.
  destruct (branch_of resource operation); unfold_node;
    repeat host_case this; turn_done.
Qed.

Lemma Forall_concat_nth {A} (P : A -> Prop) (segs : list (list A)) :
  (forall i seg, nth_error segs i = Some seg -> Forall P seg) ->
  Forall P (concat segs).
Proof.
  induction segs as [|seg segs IH]; intros H; simpl; [constructor|].
  apply Forall_app. split; [exact (H 0 seg eq_refl)|].
  apply IH. intros i sg Hi. exact (H (S i) sg Hi).
Qed.

Lemma run_header_known : Forall call_known run_header.
Proof. repeat constructor. Qed.

Lemma prefix_known (hdr rest : list Event) :
  run_header = hdr ++ rest -> Forall call_known hdr.
Proof.
  intros E. pose proof run_header_known as H. rewrite E in H.
  now apply Forall_app in H.
Qed.

(** Every call of a run is a known one. *)
Lemma execute_known {W} (this : IExecuteFunctions W) (s : State W) :
  exists t,
    calls (snd (execute this s)) = calls s ++ t /\ Forall call_known t.
Proof.
  destruct (execute_calls this (fun _ t => Forall call_known t))
    with (s := s) as (hdr & segs & Hc & [rest Hh] & _ & Hall & _).
  { intros resource operation includeRaw i si.
    destruct (item_step_known this resource operation includeRaw i si)
      as (t & Ht & _ & Hk).
    exists t. auto. }
  exists (hdr ++ concat segs). split; [exact Hc|].
  apply Forall_app. split; [exact (prefix_known _ _ Hh)|].
  now apply Forall_concat_nth.
Qed.

(** X4. The calls of a run are the opening reads followed by the calls of
    the turns, item after item.  The calls of the turn of item [i] are reads
    of parameters at index [i], then possibly the credential lookup, then
    possibly the request, then possibly the continue-on-fail query, in this
    order and nothing else: no parameter is read once the credential has
    been looked up, no request is made without the lookup just before it, a
    lookup is followed by the request or by the query, and nothing follows
    the request but the query. *)
Theorem X4_order_of_calls {W} (this : IExecuteFunctions W) (s : State W) :
  exists hdr segs,
    calls (snd (execute this s)) = calls s ++ hdr ++ concat segs /\
    (exists rest, run_header = hdr ++ rest) /\
    length segs <= length (inputData this) /\
    forall i seg, nth_error segs i = Some seg -> turn_shape i seg = true.
Proof.
  destruct (execute_calls this (fun i t => turn_shape i t = true))
    with (s := s) as (hdr & segs & Hc & Hh & Hlen & Hall & _).
  { intros resource operation includeRaw i si.
    destruct (item_step_known this resource operation includeRaw i si)
      as (t & Ht & Hs & _).
    exists t. auto. }
  exists hdr, segs. auto.
Qed.

Lemma declared_read_spec (name : string) (fallback : option JVal) :
  declared_read name fallback = true ->
  exists p, In p Authentica.properties /\ prop_name p = name /\
            (fallback = None \/ fallback = Some (prop_default p)).
Proof.
  unfold declared_read. intros H. apply existsb_exists in H as (p & Hin & H).
  apply andb_true_iff in H as [Hn Hd]. apply String.eqb_eq in Hn.
  exists p. repeat split; auto.
  destruct fallback as [[| |a| |a| |]|]; destruct (prop_default p);
    simpl in Hd; try discriminate; auto; right; f_equal; f_equal.
  - now apply Bool.eqb_prop.
  - now apply String.eqb_eq.
Qed.

(** X5. A run reads no parameter that the node description does not
    declare, and whenever it hands [getNodeParameter] a fallback, the
    fallback is the default the description gives that parameter.  The
    credential it looks up is one the description requires. *)
Theorem X5_reads_are_declared {W} (this : IExecuteFunctions W) (s : State W) :
  exists t,
    calls (snd (execute this s)) = calls s ++ t /\
    (forall name i fallback,
       In (CallGetNodeParameter name i fallback) t ->
       exists p, In p Authentica.properties /\ prop_name p = name /\
                 (fallback = None \/ fallback = Some (prop_default p))) /\
    (forall n, In (CallGetCredentials n) t ->
               In (n, true) Authentica.credentials /\ n = AuthenticaApi.name).
Proof.
  destruct (execute_known this s) as (t & Ht & Hk).
  exists t. split; [exact Ht|]. rewrite Forall_forall in Hk. split.
  - intros name i fallback Hin. apply Hk in Hin.
    now apply declared_read_spec.
  - intros n Hin. apply Hk in Hin. simpl in Hin. split; [exact Hin|].
    destruct Hin as [E|[]]. now injection E as <-.
Qed.

Lemma baseUrl_of_not_empty (creds : option ICredentialDataDecryptedObject) :
  baseUrl_of creds <> "".
Proof.
  unfold baseUrl_of. destruct creds as [c|]; [|discriminate].
  destruct (credential_prop "baseUrl" c) as [u|]; [|discriminate].
  destruct (String.eqb_spec u ""); [discriminate | assumption].
Qed.

(** X6. Whatever its parameters, a run sends nothing but the three requests
    of the node: a POST to [/api/v2/send-otp] or to [/api/v2/verify-otp]
    with a body of two properties, or a GET to [/api/v2/balance] without
    one.  It never sends a DELETE, and the address is the path after a base
    URL that is never empty. *)
Theorem X6_requests_are_the_three_endpoints {W} (this : IExecuteFunctions W)
    (s : State W) :
  exists t,
    calls (snd (execute this s)) = calls s ++ t /\
    forall c o r,
      In (CallHttpRequest c o r) t ->
      endpoint_request o /\
      method o <> DELETE /\
      (method o = GET <-> body o = None) /\
      (forall b, body o = Some b -> length b = 2) /\
      exists base path,
        url o = (base ++ path)%string /\ base <> "" /\
        In path ["/api/v2/send-otp"; "/api/v2/verify-otp"; "/api/v2/balance"].
Proof.
  destruct (execute_known this s) as (t & Ht & Hk).
  exists t. split; [exact Ht|]. rewrite Forall_forall in Hk.
  intros c o r Hin. apply Hk in Hin. destruct Hin as [_ He].
  split; [exact He|].
  destruct He as [creds m k v _|creds otp k v _|creds]; simpl;
    (split; [discriminate|]);
    (split; [split; discriminate || reflexivity|]);
    (split; [intros b Hb; try discriminate; now injection Hb as <-|]);
    exists (baseUrl_of creds); eexists;
    (split; [reflexivity|]); (split; [apply baseUrl_of_not_empty|]);
    simpl; auto.
Qed.

(** ** Runs: empty input, where errors come from, what the records are *)

(** X7. A run over no input items reads the three run-level parameters at
    index 0, [resource], then [operation], then [includeRaw], and stops at
    the first that does not resolve, throwing its error as it is; when the
    three resolve it returns one empty branch.  These reads are all it
    does: it looks up no credential, makes no request and leaves the remote
    as it was. *)
Theorem X7_empty_input {W} (this : IExecuteFunctions W) (s : State W) :
  inputData this = [] ->
  (forall m,
     resolveParameter this "resource" 0 None = Throw m ->
     execute this s
     = (Throw (Uncaught (HostError m)),
        mkState (world s) (calls s ++ [CallGetNodeParameter "resource" 0 None])))
  /\
  (forall resource m,
     resolveParameter this "resource" 0 None = Ok resource ->
     resolveParameter this "operation" 0 None = Throw m ->
     execute this s
     = (Throw (Uncaught (HostError m)),
        mkState (world s)
          (calls s ++ [CallGetNodeParameter "resource" 0 None;
                       CallGetNodeParameter "operation" 0 None])))
  /\
  (forall resource operation m,
     resolveParameter this "resource" 0 None = Ok resource ->
     resolveParameter this "operation" 0 None = Ok operation ->
     resolveParameter this "includeRaw" 0 (Some (JBool false)) = Throw m ->
     execute this s
     = (Throw (Uncaught (HostError m)),
        mkState (world s) (calls s ++ run_header)))
  /\
  (forall resource operation includeRaw,
     resolveParameter this "resource" 0 None = Ok resource ->
     resolveParameter this "operation" 0 None = Ok operation ->
     resolveParameter this "includeRaw" 0 (Some (JBool false)) = Ok includeRaw ->
     execute this s = (Ok [[]], mkState (world s) (calls s ++ run_header))).
Proof.
  intros Hn. unfold execute, getNodeParameter, record. rewrite Hn. simpl.
  split; [|split; [|split]].
  - intros m Hr. now rewrite Hr.
  - intros resource m Hr Ho. rewrite Hr, Ho. simpl.
    now rewrite <- app_assoc.
  - intros resource operation m Hr Ho Hi. rewrite Hr, Ho, Hi. simpl.
    now rewrite <- !app_assoc.
  - intros resource operation includeRaw Hr Ho Hi. rewrite Hr, Ho, Hi. simpl.
    now rewrite <- !app_assoc.
Qed.

(** No items: with a resource and no operation the second read fails; with
    the parameters of the balance the run returns its empty branch. *)
Lemma X7_witness :
  execute (Demo.host 0 [("resource", Demo.const (JStr "otp"))] true
             Demo.serving) Demo.start
  = (Throw (Uncaught (HostError "Could not get parameter")),
     mkState 0 [CallGetNodeParameter "resource" 0 None;
                CallGetNodeParameter "operation" 0 None]) /\
  execute (Demo.host 0 Demo.balance true Demo.serving) Demo.start
  = (Ok [[]], mkState 0 run_header).
Proof.
  split.
  - destruct (@X7_empty_input _
                (Demo.host 0 [("resource", Demo.const (JStr "otp"))] true
                   Demo.serving) Demo.start eq_refl) as (_ & H & _).
    exact (H (JStr "otp") (PlainError "Could not get parameter")
             eq_refl eq_refl).
  - destruct (@X7_empty_input _ (Demo.host 0 Demo.balance true Demo.serving)
                Demo.start eq_refl) as (_ & _ & _ & H).
    exact (H (JStr "account") (JStr "getBalance") (JBool false)
             eq_refl eq_refl eq_refl).
Defined.

(** X8. What [execute] throws is one of three things.  The error of the
    first run-level parameter that did not resolve, thrown as it is, no item
    having been entered and no request made.  Or, continue-on-fail being
    off, what the [catch] of an item [i] below the number of items made of
    the error [e] its [try] body raised, the items before it having each
    ended with a record: the [NodeApiError] of [e] with [itemIndex] [i]
    when [e] is not a [NodeApiError]; and [e] itself, as it is, when it is
    one already. *)
Theorem X8_what_execute_throws {W} (this : IExecuteFunctions W)
    (s s' : State W) (err : RunError) :
  execute this s = (Throw err, s') ->
  (exists m,
     err = Uncaught (HostError m) /\
     (resolveParameter this "resource" 0 None = Throw m \/
      (exists resource,
         resolveParameter this "resource" 0 None = Ok resource /\
         resolveParameter this "operation" 0 None = Throw m) \/
      (exists resource operation,
         resolveParameter this "resource" 0 None = Ok resource /\
         resolveParameter this "operation" 0 None = Ok operation /\
         resolveParameter this "includeRaw" 0 (Some (JBool false)) = Throw m)) /\
     http_calls (calls s') = http_calls (calls s)) \/
  (exists e i resource operation includeRaw si s1,
     continueOnFailSetting this = false /\
     i < length (inputData this) /\
     resolveParameter this "resource" 0 None = Ok resource /\
     resolveParameter this "operation" 0 None = Ok operation /\
     resolveParameter this "includeRaw" 0 (Some (JBool false)) = Ok includeRaw /\
     reaches this resource operation includeRaw (after_header s) i si /\
     item_body this resource operation includeRaw i si = (Throw e, s1) /\
     s' = record CallContinueOnFail s1 /\
     ((is_NodeApiError e = false /\ err = NodeApiError e i) \/
      (is_NodeApiError e = true /\ err = Rethrown e))).
Proof.
  intros H.
  destruct (resolveParameter this "resource" 0 None) as [resource|m] eqn:Hr.
  2:{ unfold execute, getNodeParameter in H. rewrite Hr in H. simpl in H.
      injection H as <- <-. left. exists m. repeat split; auto.
      unfold record. simpl. rewrite http_calls_app. simpl.
      now rewrite app_nil_r. }
  destruct (resolveParameter this "operation" 0 None) as [operation|m] eqn:Ho.
  2:{ unfold execute, getNodeParameter in H. rewrite Hr, Ho in H. simpl in H.
      injection H as <- <-. left. exists m.
      split; [reflexivity|]. split; [right; left; eauto|].
      unfold record. simpl. rewrite !http_calls_app. simpl.
      now rewrite !app_nil_r. }
  destruct (resolveParameter this "includeRaw" 0 (Some (JBool false)))
    as [includeRaw|m] eqn:Hi.
  2:{ unfold execute, getNodeParameter in H. rewrite Hr, Ho, Hi in H.
      simpl in H. injection H as <- <-. left. exists m.
      split; [reflexivity|]. split; [right; right; eauto|].
      unfold record. simpl. rewrite !http_calls_app. simpl.
      now rewrite !app_nil_r. }
  rewrite (execute_run this s Hr Ho Hi) in H.
  destruct (for_items _ _ _ _ _ _ _ _) as [[rd|e0] s4] eqn:Hl; [discriminate|].
  injection H as <- <-.
  apply for_items_throw in Hl as (rs & s1 & Hlen & Ht & Hs). simpl in Hs.
  apply item_step_throw in Hs as (Hc & e & s2 & Hb & -> & ->).
  right. exists e, (length rs), resource, operation, includeRaw, s1, s2.
  split; [exact Hc|]. split; [exact Hlen|].
  split; [reflexivity|]. split; [reflexivity|]. split; [reflexivity|].
  split; [exists rs; auto|]. split; [exact Hb|]. split; [reflexivity|].
  unfold new_NodeApiError. destruct (is_NodeApiError e); auto.
Qed.

(** The run that aborts on a malformed number at item 1, and the run whose
    request is rejected at item 0. *)
Lemma X8_witness :
  (exists e i,
     fst (execute (Demo.host 2 Demo.send_sms false Demo.serving) Demo.start)
     = Throw (NodeApiError e i) /\ i < 2) /\
  (exists e,
     fst (execute (Demo.host 2 Demo.balance false Demo.rejecting) Demo.start)
     = Throw (Rethrown e) /\ is_NodeApiError e = true).
Proof.
  split.
  - destruct (@X8_what_execute_throws _
                (Demo.host 2 Demo.send_sms false Demo.serving)
                Demo.start _ _ eq_refl)
      as [(m & H & _)
         |(e & i & r & o & raw & si & s1 & _ & Hi & _ & _ & _ & _ & _ & _
             & [[_ H]|[_ H]])];
      try discriminate H.
    exists e, i. split; [|exact Hi]. simpl. now rewrite <- H.
  - destruct (@X8_what_execute_throws _
                (Demo.host 2 Demo.balance false Demo.rejecting)
                Demo.start _ _ eq_refl)
      as [(m & H & _)
         |(e & i & r & o & raw & si & s1 & _ & _ & _ & _ & _ & _ & _ & _
             & [[_ H]|[He H]])];
      try discriminate H.
    exists e. split; [|exact He]. simpl. now rewrite <- H.
Defined.

Lemma lookup_set_prop_other (k k' : string) (v : JVal) (o : IDataObject) :
  k <> k' -> lookup_prop k (set_prop k' v o) = lookup_prop k o.
Proof.
  intros Hk. induction o as [|[a b] o IH]; simpl.
  - destruct (String.eqb_spec k' k); [congruence | reflexivity].
  - destruct (String.eqb_spec a k') as [->|Ha]; simpl.
    + destruct (String.eqb_spec k' k); [congruence | reflexivity].
    + destruct (String.eqb_spec a k); [reflexivity | exact IH].
Qed.

Lemma lookup_attach_raw_other (k : string) (includeRaw res : JVal)
    (o : IDataObject) :
  k <> "raw" ->
  lookup_prop k (attach_raw includeRaw o res) = lookup_prop k o.
Proof.
  intros Hk. unfold attach_raw.
  destruct (truthy includeRaw && truthy res); [|reflexivity].
  now apply lookup_set_prop_other.
Qed.

(** The record of a [try] body that completes is not paired and has no
    [error]. *)
Lemma item_body_ok_record {W} (this : IExecuteFunctions W)
    (resource operation includeRaw : JVal) (i : nat) (s s' : State W)
    (r : INodeExecutionData) :
  item_body this resource operation includeRaw i s = (Ok r, s') ->
  pairedItem r = None /\ lookup_prop "error" (json r) = None.
Proof.
  rewrite item_body_branch. destruct (branch_of resource operation).
  - destruct (send_block this i s) as [[[out res]|e] s1] eqn:Hb; simpl;
      [|discriminate].
    intros H. injection H as <- <-. apply send_block_ok in Hb as [-> _].
    split; [reflexivity|]. simpl.
    now rewrite lookup_attach_raw_other by discriminate.
  - destruct (verify_block this i s) as [[[out res]|e] s1] eqn:Hb; simpl;
      [|discriminate].
    intros H. injection H as <- <-. apply verify_block_ok in Hb as [-> _].
    split; [reflexivity|]. simpl.
    now rewrite lookup_attach_raw_other by discriminate.
  - destruct (getBalance_block this i s) as [[[out res]|e] s1] eqn:Hb; simpl;
      [|discriminate].
    intros H. injection H as <- <-.
    apply getBalance_block_ok in Hb as (b & _ & -> & _).
    split; [reflexivity|]. simpl.
    now rewrite lookup_attach_raw_other by discriminate.
  - intros H. injection H as <- <-. split; reflexivity.
Qed.

(** X9. In the records a run returns, the record at position [i] is of one
    of two kinds, told apart by either [pairedItem] or the key [error]: the
    record of an item that completed, which is not paired and has no
    [error]; or the record of a failure captured under continue-on-fail,
    which is paired with item [i] and is [{ error: message }] and nothing
    more. *)
Theorem X9_two_kinds_of_record {W} (this : IExecuteFunctions W)
    (s s' : State W) (rs : list INodeExecutionData) :
  execute this s = (Ok [rs], s') ->
  forall i r,
    nth_error rs i = Some r ->
    (pairedItem r = None /\ lookup_prop "error" (json r) = None) \/
    (pairedItem r = Some i /\ continueOnFailSetting this = true /\
     exists m, json r = [("error", JStr m)]).
Proof.
  intros H i r Hn.
  apply execute_ok_turns in H
    as (rs' & resource & operation & includeRaw & E & _ & _ & _ & Hl).
  injection E as <-. apply for_items_ok in Hl as (rs' & E & _ & Ht).
  simpl in E. subst rs'.
  destruct (turns_nth i Ht Hn) as (pre & sk & sk' & _ & _ & Hs).
  simpl in Hs. unfold item_step, continueOnFail in Hs.
  destruct (item_body this resource operation includeRaw i sk)
    as [[r0|e] s1] eqn:Hb.
  - injection Hs as <- _. left. exact (item_body_ok_record _ _ _ _ _ _ Hb).
  - destruct (continueOnFailSetting this); [|discriminate].
    injection Hs as <- _. right. simpl. eauto.
Qed.

(** The two records of the run that sends to a good and to a bad number. *)
Lemma X9_witness :
  (pairedItem (mkItem [("error", JStr "Phone must be E.164, e.g. +9665XXXXXXX")]
                 (Some 1)) = None /\
   lookup_prop "error"
     (json (mkItem [("error", JStr "Phone must be E.164, e.g. +9665XXXXXXX")]
              (Some 1))) = None) \/
  (pairedItem (mkItem [("error", JStr "Phone must be E.164, e.g. +9665XXXXXXX")]
                 (Some 1)) = Some 1 /\
   true = true /\
   exists m, [("error", JStr "Phone must be E.164, e.g. +9665XXXXXXX")]
             = [("error", JStr m)]).
Proof.
  exact (@X9_two_kinds_of_record _
           (Demo.host 2 Demo.send_sms true Demo.serving)
           Demo.start _ _ eq_refl 1 _ eq_refl).
Defined.

(** ** A run that aborts *)

Section TurnSegments.
Context {W : Type} (this : IExecuteFunctions W).
Variables resource operation includeRaw : JVal.
Variable P : nat -> list Event -> Prop.
Hypothesis turn_calls :
  forall i s, exists t,
    calls (snd (item_step this resource operation includeRaw i s))
    = calls s ++ t /\ P i t.

(** The calls made over a run of turns, one segment per turn. *)
Lemma turns_calls (rs : list INodeExecutionData) :
  forall i s s',
    turns this resource operation includeRaw i s rs s' ->
    exists segs,
      calls s' = calls s ++ concat segs /\
      length segs = length rs /\
      forall k seg, nth_error segs k = Some seg -> P (i + k) seg.
Proof.
  induction rs as [|r rs IH]; intros i s s' Ht; inversion Ht; subst.
  - exists []. simpl. rewrite app_nil_r. repeat split.
    intros [|k] seg Hk; discriminate.
  - destruct (turn_calls i s) as (t & Hc & Hp).
    match goal with
    | Hs : item_step _ _ _ _ _ _ = _ |- _ => rewrite Hs in Hc; simpl in Hc
    end.
    match goal with
    | Hn : turns _ _ _ _ (S i) _ rs _ |- _ =>
        destruct (IH _ _ _ Hn) as (segs & Hs' & Hlen & Hall)
    end.
    exists (t :: segs). simpl. rewrite Hs', Hc, <- app_assoc.
    repeat split; [lia|].
    intros [|k] seg Hk; simpl in Hk.
    + injection Hk as <-. now rewrite Nat.add_0_r.
    + replace (i + S k) with (S i + k) by lia. now apply Hall.
Qed.

End TurnSegments.

Lemma in_concat_nth {A} (x : A) (segs : list (list A)) :
  In x (concat segs) ->
  exists k seg, nth_error segs k = Some seg /\ In x seg.
Proof.
  induction segs as [|seg segs IH]; simpl; [intros []|].
  intros H. apply in_app_or in H as [H|H].
  - exists 0, seg. auto.
  - destruct (IH H) as (k & sg & Hk & Hin). exists (S k), sg. auto.
Qed.

Lemma read_of_item (i j : nat) (name : string) (fallback : option JVal)
    (t : list Event) :
  forallb (call_of_item i) t = true ->
  In (CallGetNodeParameter name j fallback) t -> j = i.
Proof.
  intros H Hin. rewrite forallb_forall in H. apply H in Hin. simpl in Hin.
  apply andb_true_iff in Hin as [_ Hj]. now apply Nat.eqb_eq.
Qed.

(** X10. When [execute] throws the [NodeApiError] of item [i], the run has
    stopped there: it has made at most [i + 1] requests, and it has read no
    parameter at an index above [i], so the items after [i] were never
    looked at. *)
Theorem X10_abort_stops_the_run {W} (this : IExecuteFunctions W)
    (s s' : State W) (e : JsError) (i : nat) :
  execute this s = (Throw (NodeApiError e i), s') ->
  exists t,
    calls s' = calls s ++ t /\
    length (http_calls t) <= i + 1 /\
    forall name j fallback,
      In (CallGetNodeParameter name j fallback) t -> j <= i.
Proof.
  intros H.
  destruct (resolveParameter this "resource" 0 None) as [resource|m] eqn:Hr;
    [|unfold execute, getNodeParameter in H; rewrite Hr in H; discriminate].
  destruct (resolveParameter this "operation" 0 None) as [operation|m] eqn:Ho;
    [|unfold execute, getNodeParameter in H; rewrite Hr, Ho in H; discriminate].
  destruct (resolveParameter this "includeRaw" 0 (Some (JBool false)))
    as [includeRaw|m] eqn:Hi;
    [|unfold execute, getNodeParameter in H; rewrite Hr, Ho, Hi in H;
      discriminate].
  rewrite (execute_run this s Hr Ho Hi) in H.
  destruct (for_items _ _ _ _ _ _ _ _) as [[rd|e0] s4] eqn:Hl; [discriminate|].
  injection H as -> <-.
  apply for_items_throw in Hl as (rs & s1 & Hlen & Ht & Hs). simpl in Hs.
  assert (Ei : i = length rs).
  { apply item_step_throw in Hs as (_ & e1 & s2 & _ & E & _).
    unfold new_NodeApiError in E.
    destruct (is_NodeApiError e1); [discriminate|]. now injection E as _ <-. }
  subst i.
  destruct (@turns_calls _ this resource operation includeRaw item_calls
              (item_step_calls this resource operation includeRaw) _ _ _ _ Ht)
    as (segs & Hc & Hn & Hall).
  destruct (item_step_calls this resource operation includeRaw
              (length rs) s1) as (t & Hct & Hpt & Hht & _).
  rewrite Hs in Hct. simpl in Hct.
  exists (run_header ++ concat segs ++ t). split; [|split].
  - rewrite Hct, Hc. unfold after_header, record. simpl.
    now rewrite <- !app_assoc.
  - rewrite !http_calls_app, !length_app. simpl.
    assert (length (http_calls (concat segs)) <= length segs).
    { apply http_calls_concat_bound. intros k seg Hk.
      now destruct (Hall k seg Hk) as (_ & Hb & _). }
    lia.
  - intros name j fallback Hin.
    apply in_app_or in Hin as [Hin|Hin].
    { simpl in Hin. destruct Hin as [E|[E|[E|[]]]]; injection E as _ <- _; lia. }
    apply in_app_or in Hin as [Hin|Hin].
    + apply in_concat_nth in Hin as (k & seg & Hk & Hin).
      destruct (Hall k seg Hk) as (Hr' & _ & _). simpl in Hr'.
      rewrite (@read_of_item _ _ _ _ _ Hr' Hin).
      assert (k < length segs) by (apply nth_error_Some; congruence).
      lia.
    + rewrite (@read_of_item _ _ _ _ _ Hpt Hin). lia.
Qed.

(** Two items and a remote that refuses, continue-on-fail off: one request
    and no read above index 0. *)
Lemma X10_witness :
  exists t,
    calls (snd (execute (Demo.host 2 Demo.balance false Demo.refusing)
                  Demo.start)) = calls Demo.start ++ t /\
    length (http_calls t) <= 1.
Proof.
  destruct (@X10_abort_stops_the_run _
              (Demo.host 2 Demo.balance false Demo.refusing)
              Demo.start _ _ 0 eq_refl) as (t & Hc & Hn & _).
  exists t. split; [exact Hc | exact Hn].
Defined.

(** ** The identifier that is sent *)

(** X11. Validation looks at the trimmed identifier, the request carries
    the identifier as it was given.  With the credential and the parameters
    resolved, an identifier that is a well-formed number (or address, by
    [otpMethod] and [verifyWith]) between leading and trailing white space
    passes, and the request of [send] and of [verify] holds it with that
    white space. *)
Theorem X11_identifier_sent_as_given {W} (this : IExecuteFunctions W)
    (includeRaw : JVal) (i : nat) (s : State W)
    (creds : option ICredentialDataDecryptedObject)
    (l t r : list ascii) :
  credentialStore this "authenticaApi" = Ok creds ->
  all_space l -> all_space r ->
  let given := JStr (string_of_list_ascii (l ++ t ++ r)) in
  (forall otpMethod phone email,
     resolveParameter this "otpMethod" i None = Ok otpMethod ->
     resolveParameter this "phone" i (Some (JStr "")) = Ok phone ->
     resolveParameter this "email" i (Some (JStr "")) = Ok email ->
     (if strict_eq_str otpMethod "email" then email else phone) = given ->
     (if strict_eq_str otpMethod "email" then email_form t else E164_form t) ->
     exists response,
       http_calls (calls (snd (item_body this (JStr "otp") (JStr "send")
                                 includeRaw i s)))
       = http_calls (calls s)
         ++ [CallHttpRequest "authenticaApi"
               (send_request creds otpMethod given) response]) /\
  (forall verifyWith otp,
     resolveParameter this "verifyWith" i None = Ok verifyWith ->
     resolveParameter this "otp" i None = Ok otp ->
     resolveParameter this
       (if strict_eq_str verifyWith "email" then "verifyEmail"
        else "verifyPhone") i None = Ok given ->
     (if strict_eq_str verifyWith "email" then email_form t else E164_form t) ->
     exists response,
       http_calls (calls (snd (item_body this (JStr "otp") (JStr "verify")
                                 includeRaw i s)))
       = http_calls (calls s)
         ++ [CallHttpRequest "authenticaApi"
               (verify_request creds verifyWith otp given) response]).
Proof.
  intros Hc Hl Hr given.
  assert (HE : E164_form t -> isE164 given = Ok true).
  { intros Hf.
    apply (proj2 (@trimmed_test_spec re_E164 E164_form re_E164_spec
                    E164_form_no_space E164_form_not_empty given)).
    exists l, t, r. auto. }
  assert (HM : email_form t -> isEmail given = Ok true).
  { intros Hf.
    apply (proj2 (@trimmed_test_spec re_email email_form re_email_spec
                    email_form_no_space email_form_not_empty given)).
    exists l, t, r. auto. }
  split.
  - intros otpMethod phone email Hm Hp He Hg Hf.
    assert (Hv : (if strict_eq_str otpMethod "email" then isEmail email
                  else isE164 phone) = Ok true).
    { destruct (strict_eq_str otpMethod "email"); subst; auto. }
    destruct (send_dispatch this includeRaw i s Hc Hm Hp He Hv) as [resp Hd].
    exists resp. simpl in Hd. rewrite Hd, http_calls_app, Hg. reflexivity.
  - intros verifyWith otp Hw Ho Hp Hf.
    assert (Hv : (if strict_eq_str verifyWith "email" then isEmail given
                  else isE164 given) = Ok true).
    { destruct (strict_eq_str verifyWith "email"); auto. }
    destruct (verify_dispatch this includeRaw i s Hc Hw Ho Hp Hv) as [resp Hd].
    exists resp. simpl in Hd. rewrite Hd, http_calls_app.
    destruct (strict_eq_str verifyWith "email"); reflexivity.
Qed.

(** A number given with a space before and after is sent with them. *)
Lemma X11_witness :
  exists response,
    http_calls (calls (snd (item_body
      (Demo.host 1 [("otpMethod", Demo.const (JStr "sms"));
                    ("phone", Demo.const (JStr " +966512345678 "))]
         true Demo.serving)
      (JStr "otp") (JStr "send") (JBool false) 0 Demo.start)))
    = [CallHttpRequest "authenticaApi"
         (mkOptions POST "https://staging.authentica.sa/api/v2/send-otp"
            request_headers true
            (Some [("method", JStr "sms"); ("phone", JStr " +966512345678 ")]))
         response].
Proof.
  destruct (@X11_identifier_sent_as_given _
              (Demo.host 1 [("otpMethod", Demo.const (JStr "sms"));
                            ("phone", Demo.const (JStr " +966512345678 "))]
                 true Demo.serving)
              (JBool false) 0 Demo.start (Some Demo.stored)
              (list_ascii_of_string " ") (list_ascii_of_string "+966512345678")
              (list_ascii_of_string " ") eq_refl eq_refl eq_refl)
    as [Hsend _].
  destruct (Hsend (JStr "sms") (JStr " +966512345678 ") (JStr "")
              eq_refl eq_refl eq_refl eq_refl) as [resp H].
  - exists "9"%char, (list_ascii_of_string "66512345678").
    repeat split; simpl; lia.
  - exists resp. exact H.
Defined.

(** ** [doRequest] *)

(** X12. [doRequest] looks up the credential [authenticaApi] first.  When
    the lookup fails it makes no request, leaves the remote as it is and
    throws the lookup's error.  Otherwise it makes exactly one request,
    with the method given, to the base URL followed by the path, carrying
    the body given unless the method is GET, which never carries one; and
    what it returns or throws is what the transport returned or threw. *)
Theorem X12_doRequest_contract {W} (this : IExecuteFunctions W)
    (m : HttpMethod) (path : string) (b : option IDataObject) (i : nat)
    (s : State W) :
  exists t,
    calls (snd (doRequest this m path b i s))
    = calls s ++ CallGetCredentials "authenticaApi" :: t /\
    match credentialStore this "authenticaApi" with
    | Throw msg =>
        t = [] /\
        fst (doRequest this m path b i s) = Throw (HostError msg) /\
        world (snd (doRequest this m path b i s)) = world s
    | Ok creds =>
        exists o r,
          t = [CallHttpRequest "authenticaApi" o r] /\
          method o = m /\
          url o = (baseUrl_of creds ++ path)%string /\
          body o = match m with GET => None | _ => b end /\
          fst (doRequest this m path b i s) = of_host r /\
          transport this "authenticaApi" o (world s)
          = (r, world (snd (doRequest this m path b i s)))
    end.
Proof.
  rewrite doRequest_run.
  destruct (credentialStore this "authenticaApi") as [creds|msg]; simpl.
  - destruct (transport this "authenticaApi"
                (request_options m (baseUrl_of creds) path b) (world s))
      as [r w] eqn:Et.
    simpl. eexists. split; [reflexivity|].
    exists (request_options m (baseUrl_of creds) path b), r.
    split; [reflexivity|].
    repeat split; auto;
      unfold request_options; destruct b, m; reflexivity.
  - exists []. repeat split.
Qed.

(** ** The description and the blocks of [execute] *)

(** X13. [execute] has a block for exactly the pairs of resource and
    operation that the description offers (the options of each
    [operation] property, under each resource it is shown for); any other
    pair of values, strings or not, selects no block.  The default
    operation of each resource has a block. *)
Theorem X13_blocks_are_the_offered_operations (resource operation : JVal) :
  (branch_of resource operation <> NoBranch <->
   exists r o, resource = JStr r /\ operation = JStr o /\ In (r, o) offered) /\
  (forall p r,
     In p Authentica.properties -> prop_name p = "operation" ->
     In r (show_values "resource" (prop_show p)) ->
     branch_of (JStr r) (prop_default p) <> NoBranch).
Proof.
  split.
  - unfold branch_of. split.
    + destruct (strict_eq_str resource "otp") eqn:Er;
        destruct (strict_eq_str operation "send") eqn:Es;
        destruct (strict_eq_str operation "verify") eqn:Ev;
        destruct (strict_eq_str resource "account") eqn:Ea;
        destruct (strict_eq_str operation "getBalance") eqn:Eg;
        simpl; intros H; try congruence;
        repeat match goal with
        | E : strict_eq_str _ _ = true |- _ =>
            apply strict_eq_str_true in E; subst
        end;
        try discriminate;
        eexists _, _; (split; [reflexivity|]); (split; [reflexivity|]);
        simpl; auto.
    + intros (r & o & -> & -> & Hin). simpl in Hin.
      destruct Hin as [E|[E|[E|[]]]]; injection E as <- <-; discriminate.
  - intros p r Hin Hn Hr. simpl in Hin.
    repeat (destruct Hin as [<-|Hin]; [simpl in Hn, Hr; try discriminate|]);
      try contradiction;
      destruct Hr as [<-|[]]; discriminate.
Qed.

(** X14. The field the description shows is the parameter the block uses.
    For each method it offers for [send], one field is shown under that
    method; the value that parameter resolves to is what the [try] body
    validates (with [isEmail] for [email], with [isE164] for [phone]), so
    that the error of the check is raised exactly when the check fails and
    no request is made unless it passes, and when it passes the request
    carries that value under the field's name beside [method].  For each
    way of verifying it offers, one field is shown; the value of that
    parameter is what the body validates, and the body reads that
    parameter, [verifyWith] and [otp] and no other. *)
Theorem X14_shown_field_is_the_one_used {W} (this : IExecuteFunctions W)
    (includeRaw : JVal) (i : nat) (s : State W) :
  (forall m, In m (options_of "otpMethod") ->
     exists k, fields_for "otpMethod" m = [k] /\
       forall phone email v,
         resolveParameter this "otpMethod" i None = Ok (JStr m) ->
         resolveParameter this "phone" i (Some (JStr "")) = Ok phone ->
         resolveParameter this "email" i (Some (JStr "")) = Ok email ->
         resolveParameter this k i (Some (JStr "")) = Ok v ->
         guards (if String.eqb k "email" then isEmail v else isE164 v)
           (if String.eqb k "email" then email_error else phone_error)
           (fst (item_body this (JStr "otp") (JStr "send") includeRaw i s))
           s
           (snd (item_step this (JStr "otp") (JStr "send") includeRaw i s)) /\
         (forall creds,
            credentialStore this "authenticaApi" = Ok creds ->
            (if String.eqb k "email" then isEmail v else isE164 v) = Ok true ->
            exists o response,
              http_calls (calls (snd (item_body this (JStr "otp") (JStr "send")
                                        includeRaw i s)))
              = http_calls (calls s)
                ++ [CallHttpRequest "authenticaApi" o response] /\
              body o = Some [("method", JStr m); (k, v)])) /\
  (forall w, In w (options_of "verifyWith") ->
     exists k, fields_for "verifyWith" w = [k] /\
       forall otp v,
         resolveParameter this "verifyWith" i None = Ok (JStr w) ->
         resolveParameter this "otp" i None = Ok otp ->
         resolveParameter this k i None = Ok v ->
         guards (if String.eqb k "verifyEmail" then isEmail v else isE164 v)
           (if String.eqb k "verifyEmail" then email_error else phone_error)
           (fst (item_body this (JStr "otp") (JStr "verify") includeRaw i s))
           s
           (snd (item_step this (JStr "otp") (JStr "verify") includeRaw i s)) /\
         exists t,
           calls (snd (item_body this (JStr "otp") (JStr "verify")
                         includeRaw i s)) = calls s ++ t /\
           In (CallGetNodeParameter k i None) t /\
           forall name j fallback,
             In (CallGetNodeParameter name j fallback) t ->
             name = "verifyWith" \/ name = "otp" \/ name = k).
Proof.
  split.
  - intros m Hin. simpl in Hin.
    destruct Hin as [<-|[<-|[<-|[]]]]; eexists; (split; [reflexivity|]);
      intros phone email v Hm Hp He Hk; simpl in Hk;
      first [rewrite He in Hk | rewrite Hp in Hk]; injection Hk as <-;
      (split; [exact (send_guarded this includeRaw i s Hm Hp He)|]);
      intros creds Hc Hv;
      destruct (send_dispatch this includeRaw i s Hc Hm Hp He Hv) as [resp Hd];
      eexists _, resp; simpl in Hd; rewrite Hd, http_calls_app;
      (split; reflexivity).
  - intros w Hin. simpl in Hin.
    destruct Hin as [<-|[<-|[]]]; eexists; (split; [reflexivity|]);
      intros otp v Hw Ho Hk; simpl in Hk;
      (split; [exact (verify_guarded this includeRaw i s Hw Ho Hk)|]);
      rewrite item_body_branch; simpl branch_of; unfold_node;
      rewrite Hw, Ho; simpl; rewrite Hk; simpl;
      repeat host_case this;
      (eexists; split;
       [simpl; rewrite <- ?app_assoc; simpl; reflexivity|]);
      (split; [simpl; auto|]);
      intros name j fallback Hn; simpl in Hn;
      repeat (destruct Hn as [Hn|Hn];
              [try discriminate Hn; injection Hn as <- _ _; auto|]);
      contradiction.
Qed.

(** Sending by WhatsApp: the field shown is [phone], and a request carries
    the number under that name. *)
Lemma X14_witness :
  exists o response,
    http_calls (calls (snd (item_body
      (Demo.host 1 [("otpMethod", Demo.const (JStr "whatsapp"));
                    ("phone", Demo.const (JStr "+966512345678"))]
         true Demo.serving)
      (JStr "otp") (JStr "send") (JBool false) 0 Demo.start)))
    = [CallHttpRequest "authenticaApi" o response] /\
    body o = Some [("method", JStr "whatsapp");
                   ("phone", JStr "+966512345678")].
Proof.
  destruct (@X14_shown_field_is_the_one_used _
              (Demo.host 1 [("otpMethod", Demo.const (JStr "whatsapp"));
                            ("phone", Demo.const (JStr "+966512345678"))]
                 true Demo.serving)
              (JBool false) 0 Demo.start) as [Hsend _].
  destruct (Hsend "whatsapp") as (k & Hk & H).
  { simpl. auto. }
  injection Hk as <-.
  destruct (H (JStr "+966512345678") (JStr "") (JStr "+966512345678")
              eq_refl eq_refl eq_refl eq_refl) as [_ Hreq].
  exact (Hreq (Some Demo.stored) eq_refl eq_refl).
Defined.

(** ** The balance, case by case *)

(** X15. The balance of a response.  Reading it throws exactly when the
    response is null or undefined, and then a [TypeError].  A response that
    is a string, a number, a boolean or an array has no balance: the
    record says undefined.  In an object, a balance under [data] wins over
    one at the top; without a [data] the balance at the top is taken, and a
    null one there is reported as undefined. *)
Theorem X15_balance_case_by_case (res : JVal) :
  ((exists e, balance_of res = Throw e) <-> is_nullish res = true) /\
  (forall e, balance_of res = Throw e -> exists m, e = TypeError m) /\
  (is_nullish res = false -> (forall o, res <> JObj o) ->
   balance_of res = Ok JUndefined) /\
  (forall d b,
     member res "data" = d -> is_nullish d = false ->
     member d "balance" = b -> is_nullish b = false ->
     balance_of res = Ok b) /\
  (forall o b,
     res = JObj o -> is_nullish (member res "data") = true ->
     member res "balance" = b -> is_nullish b = false ->
     balance_of res = Ok b) /\
  (forall o,
     res = JObj o -> is_nullish (member res "data") = true ->
     is_nullish (member res "balance") = true ->
     balance_of res = Ok JUndefined).
Proof.
  split; [|split; [|split; [|split; [|split]]]].
  - split.
    + intros [e H]. destruct (is_nullish res) eqn:Hn; [reflexivity|].
      rewrite (balance_of_chain res Hn) in H. discriminate.
    + intros Hn. destruct (balance_of_nullish res Hn) as [m H]. eauto.
  - intros e H. destruct (is_nullish res) eqn:Hn.
    + destruct (balance_of_nullish res Hn) as [m H']. rewrite H' in H.
      injection H as <-. eauto.
    + rewrite (balance_of_chain res Hn) in H. discriminate.
  - intros Hn Ho. rewrite (balance_of_chain res Hn).
    destruct res; try discriminate; try reflexivity.
    exfalso. now apply (Ho props).
  - intros d b Hd Hdn Hb Hbn.
    assert (Hn : is_nullish res = false).
    { destruct res; try reflexivity; simpl in Hd; subst d; discriminate. }
    rewrite (balance_of_chain res Hn). unfold balance_chain.
    now rewrite Hd, Hdn, Hb, Hbn.
  - intros o b -> Hd Hb Hbn.
    rewrite (balance_of_chain (JObj o) eq_refl). unfold balance_chain.
    now rewrite Hd, Hb, Hbn.
  - intros o -> Hd Hb.
    rewrite (balance_of_chain (JObj o) eq_refl). unfold balance_chain.
    rewrite Hd, Hb. destruct (member (JObj o) "data"); try discriminate;
      reflexivity.
Qed.

(** ** How often continue-on-fail is asked for *)

Lemma item_body_quiet {W} (this : IExecuteFunctions W)
    (resource operation includeRaw : JVal) (i : nat) (s : State W) :
  exists t,
    calls (snd (item_body this resource operation includeRaw i s))
    = calls s ++ t /\ filter is_continue t = [].
Proof.
  rewrite item_body_branch.
  destruct (branch_of resource operation); unfold_node;
    repeat host_case this;
    first
      [ exists []; split; [now rewrite app_nil_r | reflexivity]
      | eexists; split;
        [simpl; rewrite <- ?app_assoc; simpl; reflexivity | reflexivity] ].
Qed.

Lemma turns_continue_count {W} (this : IExecuteFunctions W)
    (resource operation includeRaw : JVal) (rs : list INodeExecutionData) :
  forall i s s',
    turns this resource operation includeRaw i s rs s' ->
    exists t,
      calls s' = calls s ++ t /\
      length (filter is_continue t) = length (filter is_paired rs).
Proof.
  induction rs as [|r rs IH]; intros i s s' Ht; inversion Ht; subst.
  - exists []. now rewrite app_nil_r.
  - match goal with
    | Hn : turns _ _ _ _ (S i) _ rs _ |- _ =>
        destruct (IH _ _ _ Hn) as (t' & Hc' & Hn')
    end.
    match goal with
    | Hs : item_step _ _ _ _ _ _ = _ |- _ =>
        unfold item_step, continueOnFail in Hs;
        destruct (item_body_quiet this resource operation includeRaw i s)
          as (t & Hc & Hq);
        destruct (item_body this resource operation includeRaw i s)
          as [[r0|e] s0] eqn:Hb; simpl in Hc
    end.
    + match goal with Hs : (Ok r0, s0) = _ |- _ => injection Hs as -> -> end.
      destruct (item_body_ok_record _ _ _ _ _ _ Hb) as [Hp _].
      exists (t ++ t'). rewrite Hc', Hc, <- app_assoc. split; [reflexivity|].
      rewrite filter_app, length_app, Hq, Hn'. simpl.
      unfold is_paired at 2. now rewrite Hp.
    + destruct (continueOnFailSetting this); [|discriminate].
      match goal with Hs : (Ok _, _) = _ |- _ => injection Hs as <- <- end.
      exists (t ++ CallContinueOnFail :: t'). rewrite Hc'. simpl.
      rewrite Hc, <- !app_assoc. split; [reflexivity|].
      rewrite filter_app, length_app, Hq. simpl. now rewrite Hn'.
Qed.

(** X16. A run that returns has asked the host for its continue-on-fail
    setting once for each failure it captured, that is once per paired
    record, and not at all when every item completed. *)
Theorem X16_setting_asked_once_per_failure {W} (this : IExecuteFunctions W)
    (s s' : State W) (rs : list INodeExecutionData) :
  execute this s = (Ok [rs], s') ->
  exists t,
    calls s' = calls s ++ t /\
    length (filter is_continue t) = length (filter is_paired rs).
Proof.
  intros H.
  apply execute_ok_turns in H
    as (rs' & resource & operation & includeRaw & E & _ & _ & _ & Hl).
  injection E as <-. apply for_items_ok in Hl as (rs' & E & _ & Ht).
  simpl in E. subst rs'.
  destruct (turns_continue_count Ht) as (t & Hc & Hn).
  exists (run_header ++ t). split.
  - rewrite Hc. unfold after_header, record. simpl.
    now rewrite <- !app_assoc.
  - rewrite filter_app. simpl. exact Hn.
Qed.

(** Two refused requests under continue-on-fail: asked twice. *)
Lemma X16_witness :
  exists t,
    calls (snd (execute (Demo.host 2 Demo.balance true Demo.refusing)
                  Demo.start)) = calls Demo.start ++ t /\
    length (filter is_continue t) = 2.
Proof.
  destruct (@X16_setting_asked_once_per_failure _
              (Demo.host 2 Demo.balance true Demo.refusing)
              Demo.start _ _ eq_refl) as (t & Hc & Hn).
  exists t. split; [exact Hc | exact Hn].
Defined.

(** ** The credential declaration and the node *)

(** X17. The credential declaration and [doRequest] agree.  The default the
    declaration gives [baseUrl] is the address [doRequest] falls back to
    when the stored credential is missing, has no [baseUrl] or has an empty
    one; and the request that tests the credential is, method and path, the
    request of [getBalance]. *)
Theorem X17_declaration_agrees_with_doRequest
    (creds : option ICredentialDataDecryptedObject) :
  (forall d,
     In ("baseUrl", "string", d) AuthenticaApi.properties ->
     baseUrl_of None = d /\
     (forall c, credential_prop "baseUrl" c = None -> baseUrl_of (Some c) = d) /\
     (forall c, credential_prop "baseUrl" c = Some "" -> baseUrl_of (Some c) = d) /\
     (forall c, credential_prop "baseUrl" c = Some d -> baseUrl_of (Some c) = d)) /\
  method (balance_request creds) = test_method AuthenticaApi.test /\
  url (balance_request creds)
  = (baseUrl_of creds ++ test_url AuthenticaApi.test)%string /\
  body (balance_request creds) = None.
Proof.
  split; [|repeat split].
  intros d Hin. simpl in Hin.
  destruct Hin as [E|[E|[]]]; [discriminate|]. injection E as <-.
  split; [reflexivity|]. unfold baseUrl_of.
  repeat split; intros c Hc; now rewrite Hc.
Qed.

(** ** The raw response *)

Lemma lookup_raw_attach (includeRaw res : JVal) (o : IDataObject) :
  truthy includeRaw = false ->
  lookup_prop "raw" (attach_raw includeRaw o res) = lookup_prop "raw" o.
Proof. intros H. unfold attach_raw. now rewrite H. Qed.

Lemma item_body_no_raw {W} (this : IExecuteFunctions W)
    (resource operation includeRaw : JVal) (i : nat) (s s' : State W)
    (r : INodeExecutionData) :
  truthy includeRaw = false ->
  item_body this resource operation includeRaw i s = (Ok r, s') ->
  lookup_prop "raw" (json r) = None.
Proof.
  intros Hf. rewrite item_body_branch. destruct (branch_of resource operation).
  - destruct (send_block this i s) as [[[out res]|e] s1] eqn:Hb; simpl;
      [|discriminate].
    intros H. injection H as <- <-. apply send_block_ok in Hb as [-> _].
    simpl. now rewrite lookup_raw_attach.
  - destruct (verify_block this i s) as [[[out res]|e] s1] eqn:Hb; simpl;
      [|discriminate].
    intros H. injection H as <- <-. apply verify_block_ok in Hb as [-> _].
    simpl. now rewrite lookup_raw_attach.
  - destruct (getBalance_block this i s) as [[[out res]|e] s1] eqn:Hb; simpl;
      [|discriminate].
    intros H. injection H as <- <-.
    apply getBalance_block_ok in Hb as (b & _ & -> & _).
    simpl. now rewrite lookup_raw_attach.
  - intros H. now injection H as <- <-.
Qed.

(** X18. The raw response is opt-in and is lost on failure: when
    [includeRaw] resolves to a falsy value (its fallback [false] when the
    parameter is absent) no record of the run has the key [raw]; and
    whatever [includeRaw] is, the record of a captured failure has none,
    even when the request itself had been answered. *)
Theorem X18_raw_is_opt_in {W} (this : IExecuteFunctions W)
    (s s' : State W) (rs : list INodeExecutionData) (includeRaw : JVal) :
  execute this s = (Ok [rs], s') ->
  resolveParameter this "includeRaw" 0 (Some (JBool false)) = Ok includeRaw ->
  forall r, In r rs ->
    (truthy includeRaw = false -> lookup_prop "raw" (json r) = None) /\
    (is_paired r = true -> lookup_prop "raw" (json r) = None).
Proof.
  intros H Hi r Hin.
  apply execute_ok_turns in H
    as (rs' & resource & operation & raw & E & _ & _ & Hi' & Hl).
  rewrite Hi in Hi'. injection Hi' as <-.
  injection E as <-. apply for_items_ok in Hl as (rs' & E & _ & Ht).
  simpl in E. subst rs'.
  apply In_nth_error in Hin as [k Hk].
  destruct (turns_nth k Ht Hk) as (pre & sk & sk' & _ & _ & Hs).
  simpl in Hs. unfold item_step, continueOnFail in Hs.
  destruct (item_body this resource operation includeRaw k sk)
    as [[r0|e] s1] eqn:Hb.
  - injection Hs as <- _. split.
    + intros Hf. exact (item_body_no_raw _ _ _ _ _ _ Hf Hb).
    + intros Hp. destruct (item_body_ok_record _ _ _ _ _ _ Hb) as [Hn _].
      unfold is_paired in Hp. rewrite Hn in Hp. discriminate.
  - destruct (continueOnFailSetting this); [|discriminate].
    injection Hs as <- _. split; reflexivity.
Qed.

(** A balance run with [includeRaw] on whose response is null: the request
    was answered, the record is the captured failure and has no [raw]. *)
Lemma X18_witness :
  lookup_prop "raw"
    (json (mkItem [("error", JStr "Cannot read properties of null")] (Some 0)))
  = None.
Proof.
  destruct (@X18_raw_is_opt_in _
              (Demo.host 1 (Demo.with_raw Demo.balance) true
                 (Demo.answering JNull))
              Demo.start _ _ (JBool true) eq_refl eq_refl
              (mkItem [("error", JStr "Cannot read properties of null")] (Some 0)))
    as [_ H].
  - left. reflexivity.
  - apply H. reflexivity.
Defined.

(** ** The input items *)

Lemma item_step_with_input {W} (this : IExecuteFunctions W)
    (items : list INodeExecutionData) (resource operation includeRaw : JVal)
    (i : nat) (s : State W) :
  item_step (with_input this items) resource operation includeRaw i s
  = item_step this resource operation includeRaw i s.
Proof. reflexivity. Qed.

Lemma for_items_with_input {W} (this : IExecuteFunctions W)
    (items : list INodeExecutionData) (resource operation includeRaw : JVal) :
  forall n i acc s,
    for_items (with_input this items) resource operation includeRaw n i acc s
    = for_items this resource operation includeRaw n i acc s.
Proof.
  induction n as [|n IH]; intros i acc s; simpl; [reflexivity|].
  rewrite item_step_with_input.
  destruct (item_step this resource operation includeRaw i s) as [[r|e] s1];
    [apply IH | reflexivity].
Qed.

(** X19. Of its input items [execute] uses the number and nothing else: it
    reads neither their [json] nor their pairing, and carries nothing of
    them into its records.  Run on other items, as many, by a host that
    resolves parameters and credentials and answers requests as before, the
    node makes the same calls and returns or throws the same. *)
Theorem X19_input_items_count_only {W} (this : IExecuteFunctions W)
    (items : list INodeExecutionData) (s : State W) :
  length items = length (inputData this) ->
  execute (with_input this items) s = execute this s.
Proof.
  intros Hlen. unfold execute, getNodeParameter. simpl.
  destruct (resolveParameter this "resource" 0 None); simpl; [|reflexivity].
  destruct (resolveParameter this "operation" 0 None); simpl; [|reflexivity].
  destruct (resolveParameter this "includeRaw" 0 (Some (JBool false))); simpl;
    [|reflexivity].
  now rewrite for_items_with_input, Hlen.
Qed.

(** Three items that carry data, run as three empty items. *)
Lemma X19_witness :
  execute (with_input (Demo.host 3 Demo.balance true Demo.serving)
             [mkItem [("phone", JStr "+966512345678")] None;
              mkItem [("balance", JNum 5)] (Some 7);
              mkItem [] None]) Demo.start
  = execute (Demo.host 3 Demo.balance true Demo.serving) Demo.start.
Proof.
  exact (@X19_input_items_count_only _
           (Demo.host 3 Demo.balance true Demo.serving)
           [mkItem [("phone", JStr "+966512345678")] None;
            mkItem [("balance", JNum 5)] (Some 7);
            mkItem [] None] Demo.start eq_refl).
Defined.
